(** * Intelligirls AI Career Compass: the streaming chat controller

    A shallow embedding of the React chat application: the message
    model ([types.ts]), the Gemini session gateway
    ([services/geminiService.ts]), the bubble formatter
    ([components/ChatBubble.tsx]) and the conversation controller
    ([App.tsx]), followed by the properties of the specification that
    were checked against them.

    JavaScript strings are sequences of UTF-16 code units; a React
    state setter is a write to an explicit application state that is
    also recorded in a trace of events; [await] and exceptions are
    explicit. *)

From Stdlib Require Import NArith ZArith String Ascii Bool Lia.
From Stdlib Require Import QArith_base DecimalString.
From Stdlib Require DecimalPos DecimalZ.
From Stdlib Require Import List.
Import ListNotations.
Close Scope Q_scope.

(* ================================================================= *)
(** ** JavaScript strings *)

Module Js.

Definition CodeUnit := N.
Definition JsString := list CodeUnit.

(** An ASCII literal of the source as a sequence of code units. *)
Definition js (s : string) : JsString :=
  map N_of_ascii (list_ascii_of_string s).

(** [a === b] on strings. *)
Fixpoint eqb (a b : JsString) : bool :=
  match a, b with
  | [], [] => true
  | x :: a', y :: b' => N.eqb x y && eqb a' b'
  | _, _ => false
  end.

(** ToBoolean on a string: only the empty string is falsy. *)
Definition truthy (s : JsString) : bool :=
  match s with [] => false | _ :: _ => true end.

(** LineTerminator: LF, CR, LS, PS. *)
Definition isLineTerminator (c : CodeUnit) : bool :=
  N.eqb c 10 || N.eqb c 13 || N.eqb c 8232 || N.eqb c 8233.

(** WhiteSpace or LineTerminator, the code units [trim] strips. *)
Definition isWhiteSpace (c : CodeUnit) : bool :=
  N.eqb c 9 || N.eqb c 11 || N.eqb c 12 || N.eqb c 32 || N.eqb c 160
  || N.eqb c 5760 || (N.leb 8192 c && N.leb c 8202)
  || N.eqb c 8239 || N.eqb c 8287 || N.eqb c 12288 || N.eqb c 65279
  || isLineTerminator c.

Fixpoint trimStart (s : JsString) : JsString :=
  match s with
  | [] => []
  | c :: r => if isWhiteSpace c then trimStart r else s
  end.

Definition trimEnd (s : JsString) : JsString :=
  rev (trimStart (rev s)).

(** [String.prototype.trim]. *)
Definition trim (s : JsString) : JsString := trimEnd (trimStart s).

(** Number::toString of an integral time value: plain decimal digits,
    with a leading minus sign below zero. *)
Definition NumberToString (n : Z) : JsString :=
  js (NilZero.string_of_int (Z.to_int n)).

End Js.

Import Js.

(* ================================================================= *)
(** ** types.ts *)

Module Types.

Inductive Sender := USER | BOT.

Record Message := {
  id : JsString;
  text : JsString;
  sender : Sender
}.

(** The object spread [{ ...msg, text: t }]. *)
Definition withText (msg : Message) (t : JsString) : Message :=
  {| id := id msg; text := t; sender := sender msg |}.

Definition Sender_eqb (a b : Sender) : bool :=
  match a, b with
  | USER, USER | BOT, BOT => true
  | _, _ => false
  end.

End Types.

Import Types.

(* ================================================================= *)
(** ** services/geminiService.ts *)

Module GeminiService.

Record Error := { message : JsString }.

(** How a JavaScript computation completes. *)
Inductive Completion (A : Type) :=
| Normal (a : A)
| Throw (e : Error).
Arguments Normal {A} a.
Arguments Throw {A} e.

Record GoogleGenAI := { apiKey : JsString }.

Record ChatConfig := {
  systemInstruction : JsString;
  temperature : Q
}.

(** The session handle: the client and the parameters it was created
    with. *)
Record Chat := {
  client : GoogleGenAI;
  model : JsString;
  config : ChatConfig
}.

(** One streamed response chunk; the controller reads only its text,
    which it appends as a string. *)
Record GenerateContentResponse := { chunk_text : JsString }.

(** What iterating the stream returned by [sendMessageStream] does:
    it ends, yields a chunk and goes on, or throws. *)
Inductive AsyncIterable :=
| Return
| Yield (chunk : GenerateContentResponse) (rest : AsyncIterable)
| Reject (e : Error).

(** The module body: read the key, throw when it is falsy, otherwise
    build the client. *)
Definition load (API_KEY : option JsString) : Completion GoogleGenAI :=
  match API_KEY with
  | Some key =>
      if truthy key then Normal {| apiKey := key |}
      else Throw {| message := js "API_KEY environment variable not set" |}
  | None => Throw {| message := js "API_KEY environment variable not set" |}
  end.

Definition systemInstructionText : JsString :=
  js "You are 'CareerCompass', an expert, friendly, and encouraging career counselor chatbot. Your primary goal is to help users discover career paths that align with their passions and skills.

**Your Conversational Flow:**
1.  Start with a warm welcome and introduce yourself.
2.  Ask the user about their interests and hobbies (e.g., gaming, social media, painting).
3.  Then, ask about their key skills or what they are good at (e.g., problem-solving, writing, communication).
4.  Next, inquire about their favorite subjects in school or topics they love learning about.
5.  Finally, ask about their preferred work environment (e.g., collaborative team, independent work, fast-paced, creative, office-based, remote).

**Generating Career Suggestions:**
*   After gathering all the necessary information, you MUST analyze and synthesize **all** details the user has provided. Do not disregard any piece of information.
*   Based on this comprehensive analysis, provide **exactly 5** well-reasoned, tailored career suggestions.
*   For each suggestion, you must follow this format precisely:
    *   The job title must be bold (e.g., **Social Media Manager**"
  ++ js ").
    *   Follow the title with a brief, compelling paragraph explaining why this career is an excellent fit, directly referencing the user's specific interests, skills, favorite subjects, and preferred work environment.

**Important Rules:**
*   Maintain a conversational, positive, and supportive tone throughout. Do not sound robotic.
*   Use markdown for formatting, but **only for bolding titles and creating lists if necessary**.
*   **Do not** use hashtags (#) or any other special characters at the beginning of your answers or suggestions.".

(** [createChatSession]: [ai.chats.create] with the fixed persona.
    [library_failure] is what the provider's client library does with
    the call: nothing, or an exception. *)
Definition createChatSession (ai : GoogleGenAI)
    (library_failure : option Error) : Completion Chat :=
  match library_failure with
  | Some e => Throw e
  | None =>
      Normal {| client := ai;
                model := js "gemini-2.5-flash";
                config := {| systemInstruction := systemInstructionText;
                             temperature := (7 # 10)%Q |} |}
  end.

End GeminiService.

Import GeminiService.

(* ================================================================= *)
(** ** components/ChatBubble.tsx *)

Module ChatBubble.

Definition asterisk : CodeUnit := 42%N.
Definition lineFeed : CodeUnit := 10%N.
Definition doubleQuote : CodeUnit := 34%N.

(** The lazy group [(.*?)] followed by the closing [\*\*]: the
    shortest run of code units other than line terminators after
    which two asterisks stand.  Returns the group and what follows
    the closing asterisks. *)
Fixpoint lazyGroup (s : JsString) : option (JsString * JsString) :=
  match s with
  | [] => None
  | c :: r =>
      match r with
      | d :: rest =>
          if N.eqb c asterisk && N.eqb d asterisk then Some ([], rest)
          else if isLineTerminator c then None
          else match lazyGroup r with
               | Some (g, rest') => Some (c :: g, rest')
               | None => None
               end
      | [] => None
      end
  end.

(** A match of [/\*\*(.*?)\*\*/] starting at the head of [s]. *)
Definition matchBoldAt (s : JsString) : option (JsString * JsString) :=
  match s with
  | c :: d :: r =>
      if N.eqb c asterisk && N.eqb d asterisk then lazyGroup r else None
  | _ => None
  end.

(** The replacement template with [$1] filled in. *)
Definition strong (group : JsString) : JsString :=
  js "<strong class=" ++ [doubleQuote] ++ js "font-semibold"
    ++ [doubleQuote] ++ js ">" ++ group ++ js "</strong>".

(** The global replace, left to right: where the pattern matches, the
    replacement is emitted and the scan resumes after the match;
    elsewhere the code unit is copied.  [skip] counts the code units
    of the current match that are still to be passed over. *)
Fixpoint replaceBoldFrom (skip : nat) (s : JsString) : JsString :=
  match s with
  | [] => []
  | c :: r =>
      match skip with
      | S k => replaceBoldFrom k r
      | O =>
          match matchBoldAt s with
          | Some (g, _) => strong g ++ replaceBoldFrom (length g + 3) r
          | None => c :: replaceBoldFrom 0 r
          end
      end
  end.

(** [text.replace(/\*\*(.*?)\*\*/g, '<strong ...>$1</strong>')]. *)
Definition replaceBold (s : JsString) : JsString := replaceBoldFrom 0 s.

(** [.replace(/\n/g, '<br />')]. *)
Fixpoint replaceNewlines (s : JsString) : JsString :=
  match s with
  | [] => []
  | c :: r =>
      if N.eqb c lineFeed then js "<br />" ++ replaceNewlines r
      else c :: replaceNewlines r
  end.

Definition formatText (text : JsString) : JsString :=
  replaceNewlines (replaceBold text).

(** What the component hands to the rendering surface: the alignment
    classes and the string set as the paragraph's inner HTML. *)
Record Bubble := {
  isUser : bool;
  bubbleClasses : JsString;
  containerClasses : JsString;
  innerHTML : JsString
}.

Definition render (message : Message) : Bubble :=
  let isUser := Sender_eqb (sender message) USER in
  {| isUser := isUser;
     bubbleClasses :=
       if isUser then js "bg-indigo-600 text-white self-end"
       else js "bg-gray-700 text-gray-200 self-start";
     containerClasses :=
       if isUser then js "justify-end" else js "justify-start";
     innerHTML := formatText (text message) |}.

End ChatBubble.

(* ================================================================= *)
(** ** App.tsx *)

Module App.

Record AppState := {
  chat : option Chat;
  messages : list Message;
  userInput : JsString;
  isLoading : bool
}.

(** The four [useState] initial values. *)
Definition initialState : AppState :=
  {| chat := None; messages := []; userInput := []; isLoading := true |}.

(** What a run of a handler does that can be observed from outside:
    state updates (with the new value), suspensions at an [await]
    (with the state current at that point) and diagnostics. *)
Inductive Event :=
| EvSetChat (c : Chat)
| EvSetMessages (ms : list Message)
| EvSetUserInput (v : JsString)
| EvSetIsLoading (b : bool)
| EvAwait (at_state : AppState)
| EvConsoleError (label : JsString) (e : Error).

(** A handler body: from the current state to a completion, the new
    state and the events of the run. *)
Definition M (A : Type) : Type :=
  AppState -> Completion A * AppState * list Event.

Definition ret {A} (a : A) : M A := fun s => (Normal a, s, []).

Definition bind {A B} (m : M A) (f : A -> M B) : M B :=
  fun s =>
    match m s with
    | (Normal a, s1, t1) =>
        let '(r, s2, t2) := f a s1 in (r, s2, t1 ++ t2)
    | (Throw e, s1, t1) => (Throw e, s1, t1)
    end.

Declare Scope js_scope.
Delimit Scope js_scope with js.
Notation "x <- m ;; k" := (bind m (fun x => k))
  (at level 61, m at next level, right associativity) : js_scope.
Notation "m ;; k" := (bind m (fun _ => k))
  (at level 61, right associativity) : js_scope.
Local Open Scope js_scope.

(** A synchronous call that may throw. *)
Definition call {A} (r : Completion A) : M A := fun s => (r, s, []).

(** [await p]: the handler is suspended, then resumes with the value
    of the promise or throws its rejection. *)
Definition await {A} (p : Completion A) : M A :=
  fun s => (p, s, [EvAwait s]).

(** [try { body } catch (error) { handler } finally { final }]. *)
Definition tryCatchFinally (body : M unit) (handler : Error -> M unit)
    (final : M unit) : M unit :=
  fun s =>
    let '(r1, s1, t1) := body s in
    let '(r2, s2, t2) :=
      match r1 with
      | Normal _ => (r1, s1, [])
      | Throw e => handler e s1
      end in
    let '(r3, s3, t3) := final s2 in
    (match r3 with Normal _ => r2 | Throw e => Throw e end,
     s3, t1 ++ t2 ++ t3).

Definition setChat (c : Chat) : M unit :=
  fun s => (Normal tt,
            {| chat := Some c; messages := messages s;
               userInput := userInput s; isLoading := isLoading s |},
            [EvSetChat c]).

(** [setMessages(prev => f(prev))]. *)
Definition setMessages (f : list Message -> list Message) : M unit :=
  fun s => let ms := f (messages s) in
           (Normal tt,
            {| chat := chat s; messages := ms;
               userInput := userInput s; isLoading := isLoading s |},
            [EvSetMessages ms]).

(** [setMessages(value)]. *)
Definition setMessagesTo (ms : list Message) : M unit :=
  setMessages (fun _ => ms).

Definition setUserInput (v : JsString) : M unit :=
  fun s => (Normal tt,
            {| chat := chat s; messages := messages s;
               userInput := v; isLoading := isLoading s |},
            [EvSetUserInput v]).

Definition setIsLoading (b : bool) : M unit :=
  fun s => (Normal tt,
            {| chat := chat s; messages := messages s;
               userInput := userInput s; isLoading := b |},
            [EvSetIsLoading b]).

Definition consoleError (label : JsString) (e : Error) : M unit :=
  fun s => (Normal tt, s, [EvConsoleError label e]).

(** [for await (const chunk of stream) { body }], with the loop's
    mutable local threaded through as [acc].  Every pull of the next
    chunk is an [await]. *)
Fixpoint forAwait {A} (stream : AsyncIterable) (acc : A)
    (body : A -> GenerateContentResponse -> M A) : M A :=
  match stream with
  | Return => await (Normal tt) ;; ret acc
  | Yield chunk rest =>
      await (Normal tt) ;;
      acc' <- body acc chunk ;;
      forAwait rest acc' body
  | Reject e => await (Throw e)
  end.

(** What the outside world does during one run of [initializeChat]:
    the client library on session creation, the clock, and the
    provider on the bootstrap turn. *)
Record InitEnv := {
  create_failure : option Error;
  init_now : Z;
  init_sendMessageStream : Chat -> JsString -> Completion AsyncIterable
}.

Definition errorInitMessage : Message :=
  {| id := js "error-init";
     sender := BOT;
     text := js "Sorry, something went wrong while starting our session. Please refresh the page." |}.

Definition initializeChat (ai : GoogleGenAI) (env : InitEnv) : M unit :=
  tryCatchFinally
    (setIsLoading true ;;
     chatSession <- call (createChatSession ai (create_failure env)) ;;
     setChat chatSession ;;
     let initialBotMessage :=
       {| id := js "bot-init-" ++ NumberToString (init_now env);
          sender := BOT;
          text := [] |} in
     setMessagesTo [initialBotMessage] ;;
     stream <- await (init_sendMessageStream env chatSession (js "Hello!")) ;;
     forAwait stream [] (fun text chunk =>
       let text := text ++ chunk_text chunk in
       setMessagesTo [withText initialBotMessage text] ;;
       ret text) ;;
     ret tt)
    (fun error =>
       consoleError (js "Initialization failed:") error ;;
       setMessagesTo [errorInitMessage])
    (setIsLoading false).

(** What the outside world does during one run of
    [handleSendMessage]: the clock at the three places that read it,
    and the provider on the turn. *)
Record SendEnv := {
  now_user : Z;
  sendMessageStream : Chat -> JsString -> Completion AsyncIterable;
  now_bot : Z;
  now_error : Z
}.

Definition userMessageOf (env : SendEnv) (input : JsString) : Message :=
  {| id := js "user-" ++ NumberToString (now_user env);
     sender := USER;
     text := input |}.

Definition botMessageIdOf (env : SendEnv) : JsString :=
  js "bot-" ++ NumberToString (now_bot env).

Definition errorMessageOf (env : SendEnv) : Message :=
  {| id := js "error-" ++ NumberToString (now_error env);
     sender := BOT;
     text := js "I seem to be having trouble connecting. Please try again in a moment." |}.

(** The updater of the streaming loop:
    [prev.map(msg => msg.id === botMessageId ? { ...msg, text } : msg)]. *)
Definition mergeChunk (botMessageId text : JsString)
    (prev : list Message) : list Message :=
  map (fun msg => if Js.eqb (id msg) botMessageId
                  then withText msg text else msg) prev.

(** The guard at the head of [handleSendMessage]; the handler reads
    [userInput], [isLoading] and [chat] of the state it was rendered
    with. *)
Definition ignoresSubmit (s : AppState) : bool :=
  negb (truthy (trim (userInput s))) || isLoading s
  || match chat s with None => true | Some _ => false end.

(** The form's [onSubmit].  [e.preventDefault()] only keeps the
    browser from submitting the form and is left out.  After the guard
    [chat] is known not to be null. *)
Definition handleSendMessage (env : SendEnv) : M unit :=
  fun s0 =>
    if ignoresSubmit s0 then (Normal tt, s0, [])
    else
      match chat s0 with
      | None => (Normal tt, s0, [])
      | Some chat =>
          let userInput := userInput s0 in
          let userMessage := userMessageOf env userInput in
          (setMessages (fun prev => prev ++ [userMessage]) ;;
           setUserInput [] ;;
           setIsLoading true ;;
           tryCatchFinally
             (stream <- await (sendMessageStream env chat userInput) ;;
              let botMessageId := botMessageIdOf env in
              setMessages (fun prev =>
                prev ++ [{| id := botMessageId; sender := BOT; text := [] |}]) ;;
              forAwait stream [] (fun text chunk =>
                let text := text ++ chunk_text chunk in
                setMessages (mergeChunk botMessageId text) ;;
                ret text) ;;
              ret tt)
             (fun error =>
                consoleError (js "Error sending message:") error ;;
                setMessages (fun prev => prev ++ [errorMessageOf env]))
             (setIsLoading false)) s0
      end.

(** The input's [onChange]. *)
Definition handleChange (value : JsString) : M unit := setUserInput value.

(** The parts of the rendered tree that depend on the state. *)
Record View := {
  bubbles : list ChatBubble.Bubble;
  typingIndicator : bool;
  inputValue : JsString;
  inputPlaceholder : JsString;
  inputDisabled : bool;
  buttonDisabled : bool
}.

Definition render (s : AppState) : View :=
  {| bubbles := map ChatBubble.render (messages s);
     typingIndicator := isLoading s && Nat.ltb 0 (length (messages s));
     inputValue := userInput s;
     inputPlaceholder :=
       if isLoading s then js "Thinking..." else js "Type your message...";
     inputDisabled := isLoading s;
     buttonDisabled := isLoading s || negb (truthy (trim (userInput s))) |}.

(** One user turn as the page offers it: type the text, submit. *)
Record Turn := { typed : JsString; turn_env : SendEnv }.

Definition finalState {A} (r : Completion A * AppState * list Event)
  : AppState := snd (fst r).

Definition traceOf {A} (r : Completion A * AppState * list Event)
  : list Event := snd r.

Definition playTurn (t : Turn) : M unit :=
  handleChange (typed t) ;; handleSendMessage (turn_env t).

Fixpoint playTurns (ts : list Turn) : M unit :=
  match ts with
  | [] => ret tt
  | t :: ts' => playTurn t ;; playTurns ts'
  end.

(** A conversation: the mount effect, then the user's turns. *)
Definition conversation (ai : GoogleGenAI) (env : InitEnv)
    (ts : list Turn) : M unit :=
  initializeChat ai env ;; playTurns ts.

End App.

(* ================================================================= *)
(** ** index.tsx *)

Module Index.

Import App.

(** Module evaluation order: the imports first (the gateway module
    throws without a key), then the root element check, then the
    mount of [App], whose effect runs [initializeChat]. *)
Definition main (API_KEY : option JsString) (rootElement : bool)
    (env : InitEnv) : Completion (AppState * list Event) :=
  match GeminiService.load API_KEY with
  | Throw e => Throw e
  | Normal ai =>
      if rootElement then
        let r := initializeChat ai env initialState in
        Normal (finalState r, traceOf r)
      else Throw {| message := js "Could not find root element to mount to" |}
  end.

End Index.

(* ================================================================= *)
(** ** Vocabulary of the specification *)

Module Observe.

Import App.

(** The fragments a stream yields, in arrival order. *)
Fixpoint fragmentsOf (stream : AsyncIterable) : list JsString :=
  match stream with
  | Return => []
  | Yield chunk rest => chunk_text chunk :: fragmentsOf rest
  | Reject _ => []
  end.

(** How the stream ends: normally, or with an error. *)
Fixpoint failureOf (stream : AsyncIterable) : option Error :=
  match stream with
  | Return => None
  | Yield _ rest => failureOf rest
  | Reject e => Some e
  end.

(** The stream that yields [fs] and then ends as [ending] says. *)
Fixpoint streamOf (fs : list JsString) (ending : option Error)
  : AsyncIterable :=
  match fs with
  | [] => match ending with None => Return | Some e => Reject e end
  | f :: fs' => Yield {| chunk_text := f |} (streamOf fs' ending)
  end.

(** The texts accumulated after each fragment, starting from [acc]. *)
Fixpoint accumulated (acc : JsString) (fs : list JsString)
  : list JsString :=
  match fs with
  | [] => []
  | f :: fs' => (acc ++ f) :: accumulated (acc ++ f) fs'
  end.

(** The successive prefix-concatenations of [fs], the empty one
    first. *)
Definition prefixConcats (fs : list JsString) : list JsString :=
  [] :: accumulated [] fs.

(** The successive values of the message list in a trace. *)
Fixpoint messagesHistory (tr : list Event) : list (list Message) :=
  match tr with
  | [] => []
  | EvSetMessages ms :: tr' => ms :: messagesHistory tr'
  | _ :: tr' => messagesHistory tr'
  end.

(** The successive values written to the pending flag. *)
Fixpoint loadingHistory (tr : list Event) : list bool :=
  match tr with
  | [] => []
  | EvSetIsLoading b :: tr' => b :: loadingHistory tr'
  | _ :: tr' => loadingHistory tr'
  end.

(** The states in which the handler was suspended on the provider. *)
Fixpoint awaitStates (tr : list Event) : list AppState :=
  match tr with
  | [] => []
  | EvAwait s :: tr' => s :: awaitStates tr'
  | _ :: tr' => awaitStates tr'
  end.

(** The message at the end of the list, where a placeholder is
    appended. *)
Definition lastMessage (ms : list Message) : option Message :=
  nth_error ms (length ms - 1).

Definition isUserMessage (m : Message) : bool := Sender_eqb (sender m) USER.

(** Empty or whitespace-only. *)
Definition blank (s : JsString) : bool := forallb isWhiteSpace s.

(** The identifiers a user turn can give to the messages it creates. *)
Definition turnIds (env : SendEnv) : list JsString :=
  [js "user-" ++ NumberToString (now_user env);
   botMessageIdOf env;
   js "error-" ++ NumberToString (now_error env)].

(** The identifiers of a message list, in list order. *)
Definition idsOf (ms : list Message) : list JsString := map id ms.

(** The texts of the USER messages of a list, in list order. *)
Definition userTexts (ms : list Message) : list JsString :=
  map text (filter isUserMessage ms).

(** Every USER message carries an identifier made by
    [handleSendMessage]. *)
Definition userTagged (m : Message) : Prop :=
  sender m = USER -> exists z, id m = js "user-" ++ z.

Definition withMessages (s : AppState) (ms : list Message) : AppState :=
  {| chat := chat s; messages := ms;
     userInput := userInput s; isLoading := isLoading s |}.

(** The body shared by the two streaming loops: accumulate the chunk
    and publish the list that [g] computes from the accumulated text. *)
Definition streamBody (g : JsString -> list Message -> list Message)
  : JsString -> GenerateContentResponse -> M JsString :=
  fun text chunk =>
    bind (setMessages (g (text ++ chunk_text chunk)))
         (fun _ => ret (text ++ chunk_text chunk)).

(** The successive message lists such a loop publishes. *)
Fixpoint loopHistory (g : JsString -> list Message -> list Message)
    (acc : JsString) (fs : list JsString) (ms : list Message)
  : list (list Message) :=
  match fs with
  | [] => []
  | f :: fs' =>
      g (acc ++ f) ms :: loopHistory g (acc ++ f) fs' (g (acc ++ f) ms)
  end.

(** The session [createChatSession] builds for a client. *)
Definition sessionOf (ai : GoogleGenAI) : Chat :=
  {| client := ai;
     model := js "gemini-2.5-flash";
     config := {| systemInstruction := systemInstructionText;
                  temperature := (7 # 10)%Q |} |}.

(** Initialization fails: at session creation, at the initiation of
    the bootstrap turn, or while its reply streams. *)
Definition initFails (ai : GoogleGenAI) (env : InitEnv) : Prop :=
  (exists e, create_failure env = Some e)
  \/ (create_failure env = None /\
      ((exists e, init_sendMessageStream env (sessionOf ai) (js "Hello!")
                  = Throw e)
       \/ (exists stream e,
             init_sendMessageStream env (sessionOf ai) (js "Hello!")
             = Normal stream /\ failureOf stream = Some e))).

(** A user turn fails: at the initiation of the send, or while the
    reply streams. *)
Definition sendFails (env : SendEnv) (c : Chat) (input : JsString)
  : Prop :=
  (exists e, sendMessageStream env c input = Throw e)
  \/ (exists stream e,
        sendMessageStream env c input = Normal stream
        /\ failureOf stream = Some e).

(** The placeholder of a user turn holding [t]. *)
Definition botMessage (env : SendEnv) (t : JsString) : Message :=
  {| id := botMessageIdOf env; sender := BOT; text := t |}.

(** The placeholder of the bootstrap turn holding [t]. *)
Definition initialBotMessage (env : InitEnv) (t : JsString) : Message :=
  {| id := js "bot-init-" ++ NumberToString (init_now env);
     sender := BOT; text := t |}.

(** One merge step relates the lists before and after it: same
    length, and position by position the message is kept, or, when its
    identifier is the placeholder's, is the message with the same
    identifier and sender whose text is the accumulated text. *)
Definition mergedInto (botMessageId accumulatedText : JsString)
    (before after : list Message) : Prop :=
  length after = length before
  /\ forall i m, nth_error before i = Some m ->
       exists m', nth_error after i = Some m'
         /\ (id m <> botMessageId -> m' = m)
         /\ (id m = botMessageId ->
             m' = {| id := id m; text := accumulatedText;
                     sender := sender m |}).

End Observe.

(* ================================================================= *)
(** ** Markup: what the formatter passes on, and the
       sanitize-then-format pipeline the specification asks for *)

Module Markup.

Import ChatBubble.





End Markup.

(* ================================================================= *)
(** ** Scenarios *)

Module Scenario.

Import App Observe.

Definition ai : GoogleGenAI := {| apiKey := js "secret" |}.

Definition offline : Error := {| message := js "Failed to fetch" |}.

(** The provider streams [fs] and ends as [ending] says, whatever it
    is sent. *)
Definition replies (fs : list JsString) (ending : option Error)
  : Chat -> JsString -> Completion AsyncIterable :=
  fun _ _ => Normal (streamOf fs ending).

(** Initialization with a provider that streams the three fragments
    of the specification's example. *)
Definition helloInit : InitEnv :=
  {| create_failure := None;
     init_now := 1000;
     init_sendMessageStream :=
       replies [js "Hello"; js " there"; js "!"] None |}.

(** Initialization with a provider that streams one fragment. *)
Definition welcomeInit : InitEnv :=
  {| create_failure := None;
     init_now := 1000;
     init_sendMessageStream := replies [js "Welcome!"] None |}.

(** Initialization whose session creation throws. *)
Definition brokenInit : InitEnv :=
  {| create_failure := Some offline;
     init_now := 1000;
     init_sendMessageStream := replies [] None |}.

(** Initialization whose session is created and whose bootstrap turn
    is rejected. *)
Definition rejectedGreetingInit : InitEnv :=
  {| create_failure := None;
     init_now := 1000;
     init_sendMessageStream := fun _ _ => Throw offline |}.

(** The state the welcome leaves, with a text typed into the input. *)
Definition welcomed (typedText : JsString) : AppState :=
  {| chat := Some (sessionOf ai);
     messages := [initialBotMessage welcomeInit (js "Welcome!")];
     userInput := typedText;
     isLoading := false |}.

(** A turn answered with the three fragments of the specification's
    end-to-end scenario. *)
Definition drawingEnv : SendEnv :=
  {| now_user := 2000;
     sendMessageStream :=
       replies [js "You could be a "; js "**Graphic Designer**"; js "."]
               None;
     now_bot := 2750;
     now_error := 2900 |}.

(** A turn whose reply breaks off after two fragments. *)
Definition brokenStreamEnv : SendEnv :=
  {| now_user := 2000;
     sendMessageStream :=
       replies [js "You could"; js " be"] (Some offline);
     now_bot := 2750;
     now_error := 2900 |}.

(** A turn whose send is rejected at initiation. *)
Definition rejectedEnv : SendEnv :=
  {| now_user := 2000;
     sendMessageStream := fun _ _ => Throw offline;
     now_bot := 2750;
     now_error := 2900 |}.

(** Two turns during which the clock reads the same millisecond. *)
Definition sameInstant (reply : JsString) : SendEnv :=
  {| now_user := 2000;
     sendMessageStream := replies [reply] None;
     now_bot := 2000;
     now_error := 2000 |}.

Definition firstTurn : Turn :=
  {| typed := js "I love drawing"; turn_env := sameInstant (js "Design.") |}.

Definition secondTurn : Turn :=
  {| typed := js "And maths"; turn_env := sameInstant (js "Data.") |}.


End Scenario.

(* ================================================================= *)
(** ** Vocabulary for the further properties *)

Module Coverage.

Import ChatBubble App Observe.

(** No asterisk in the text. *)
Definition noAsterisk (s : JsString) : bool :=
  forallb (fun c => negb (N.eqb c asterisk)) s.

(** What the group of a bold pair may hold when it has no asterisk of
    its own: anything but asterisks and line terminators. *)
Definition plainGroup (g : JsString) : bool :=
  forallb (fun c => negb (N.eqb c asterisk || isLineTerminator c)) g.

(** The diagnostics written to the console in a trace. *)
Fixpoint consoleErrors (tr : list Event) : list (JsString * Error) :=
  match tr with
  | [] => []
  | EvConsoleError label e :: tr' => (label, e) :: consoleErrors tr'
  | _ :: tr' => consoleErrors tr'
  end.

(** The error a user turn ends with, if any: the rejection of the
    send, or the one that breaks the stream off. *)
Definition sendError (env : SendEnv) (c : Chat) (input : JsString)
  : option Error :=
  match sendMessageStream env c input with
  | Throw e => Some e
  | Normal stream => failureOf stream
  end.

(** The error initialization ends with, if any. *)
Definition initError (ai : GoogleGenAI) (env : InitEnv) : option Error :=
  match create_failure env with
  | Some e => Some e
  | None =>
      match init_sendMessageStream env (sessionOf ai) (js "Hello!") with
      | Throw e => Some e
      | Normal stream => failureOf stream
      end
  end.

(** Every USER entry is directly followed by a BOT entry. *)
Fixpoint answered (senders : list Sender) : bool :=
  match senders with
  | [] => true
  | BOT :: rest => answered rest
  | USER :: rest =>
      match rest with
      | BOT :: _ => answered rest
      | _ => false
      end
  end.

(** How many messages a submission adds: none when it is ignored,
    the user's message and one BOT message when the send is rejected or
    the reply streams to its end, and one more when the stream breaks
    off. *)
Definition turnGrowth (env : SendEnv) (s : AppState) : nat :=
  if ignoresSubmit s then 0
  else match chat s with
       | None => 0
       | Some c =>
           match sendMessageStream env c (userInput s) with
           | Throw _ => 2
           | Normal stream =>
               match failureOf stream with
               | None => 2
               | Some _ => 3
               end
           end
       end.

(** What a message keeps for life: its identifier and its sender. *)
Definition identity (m : Message) : JsString * Sender := (id m, sender m).

End Coverage.

(* ================================================================= *)
(** ** The text as the formatter reads it *)

Module Segments.

Import ChatBubble.

(** What the formatter makes of a stretch of the text: a code unit it
    copies, a group between two pairs of asterisks it emphasizes, or a
    line feed it breaks the line at. *)
Inductive Segment :=
| Copied (c : CodeUnit)
| Emphasized (group : JsString)
| LineBreak.

(** The segments of a text, left to right, found with the matcher of
    the bold replacement; [skip] counts the code units of the current
    match still to be passed over. *)
Fixpoint segmentsFrom (skip : nat) (s : JsString) : list Segment :=
  match s with
  | [] => []
  | c :: r =>
      match skip with
      | S k => segmentsFrom k r
      | O =>
          match matchBoldAt s with
          | Some (g, _) => Emphasized g :: segmentsFrom (length g + 3) r
          | None =>
              (if N.eqb c lineFeed then LineBreak else Copied c)
              :: segmentsFrom 0 r
          end
      end
  end.

Definition segments (text : JsString) : list Segment := segmentsFrom 0 text.




End Segments.

(* ================================================================= *)
(** ** Strings *)

Import ChatBubble App Observe.

Lemma eqb_spec (a b : JsString) : reflect (a = b) (Js.eqb a b).
Proof.
  revert b. induction a as [|x a IH]; intros [|y b]; simpl;
    try (constructor; congruence).
  destruct (N.eqb_spec x y) as [->|Hxy]; simpl.
  - destruct (IH b) as [->|Hab]; constructor; congruence.
  - constructor; congruence.
Qed.

Lemma eqb_refl (a : JsString) : Js.eqb a a = true.
Proof. destruct (eqb_spec a a); congruence. Qed.

Lemma trimStart_nil_iff (s : JsString) :
  trimStart s = [] <-> blank s = true.
Proof.
  induction s as [|c r IH]; simpl.
  - tauto.
  - destruct (isWhiteSpace c); simpl.
    + exact IH.
    + split; discriminate.
Qed.

Lemma blank_app (a b : JsString) : blank (a ++ b) = blank a && blank b.
Proof. apply forallb_app. Qed.

Lemma blank_rev (s : JsString) : blank (rev s) = blank s.
Proof.
  induction s as [|c r IH]; simpl; [reflexivity|].
  rewrite blank_app, IH. simpl. rewrite andb_true_r. apply andb_comm.
Qed.

Lemma blank_trimStart (s : JsString) : blank (trimStart s) = blank s.
Proof.
  induction s as [|c r IH]; simpl; [reflexivity|].
  destruct (isWhiteSpace c) eqn:E; simpl; [exact IH | now rewrite E].
Qed.

(** [!text.trim()] holds exactly for the empty and the whitespace-only
    strings. *)
Lemma trim_falsy_iff_blank (s : JsString) :
  negb (truthy (trim s)) = blank s.
Proof.
  unfold trim, trimEnd.
  destruct (blank s) eqn:Hb.
  - apply trimStart_nil_iff in Hb. rewrite Hb. reflexivity.
  - assert (H : trimStart (rev (trimStart s)) <> []).
    { intros H. apply trimStart_nil_iff in H.
      rewrite blank_rev, blank_trimStart in H. congruence. }
    destruct (trimStart (rev (trimStart s))) as [|c r] eqn:E; [congruence|].
    simpl. destruct (rev r ++ [c]) eqn:E'; [|reflexivity].
    now apply app_eq_nil in E' as [_ ?].
Qed.

(* ================================================================= *)
(** ** Prefix concatenations *)

Lemma accumulated_length acc fs :
  length (accumulated acc fs) = length fs.
Proof. revert acc. induction fs; intros; simpl; auto. Qed.

Lemma accumulated_nth acc fs k :
  k < length fs ->
  nth_error (accumulated acc fs) k = Some (acc ++ concat (firstn (S k) fs)).
Proof.
  revert acc k. induction fs as [|f fs IH]; intros acc k Hk; simpl in *.
  - lia.
  - destruct k as [|k]; simpl.
    + now rewrite app_nil_r.
    + rewrite IH by lia. simpl. now rewrite app_assoc.
Qed.

(** The [k]-th prefix-concatenation is the concatenation of the first
    [k] fragments. *)
Lemma prefixConcats_nth fs k :
  k <= length fs ->
  nth_error (prefixConcats fs) k = Some (concat (firstn k fs)).
Proof.
  intros Hk. unfold prefixConcats. destruct k as [|k]; simpl.
  - reflexivity.
  - now rewrite accumulated_nth by lia.
Qed.

Lemma last_cons_default {A} (x d : A) (l : list A) :
  last (x :: l) d = last l x.
Proof.
  revert x d. induction l as [|y l IH]; intros x d; [reflexivity|].
  change (last (x :: y :: l) d) with (last (y :: l) d).
  now rewrite !IH.
Qed.

Lemma accumulated_last acc fs :
  last (accumulated acc fs) acc = acc ++ concat fs.
Proof.
  revert acc. induction fs as [|f fs IH]; intros acc.
  - simpl. now rewrite app_nil_r.
  - cbn [accumulated concat]. rewrite last_cons_default, IH.
    now rewrite app_assoc.
Qed.

Lemma fragmentsOf_streamOf fs ending : fragmentsOf (streamOf fs ending) = fs.
Proof. induction fs; simpl; [now destruct ending | congruence]. Qed.

Lemma failureOf_streamOf fs ending : failureOf (streamOf fs ending) = ending.
Proof. induction fs; simpl; [now destruct ending | assumption]. Qed.

(* ================================================================= *)
(** ** Traces *)

Lemma messagesHistory_app t1 t2 :
  messagesHistory (t1 ++ t2) = messagesHistory t1 ++ messagesHistory t2.
Proof.
  induction t1 as [|e t1 IH]; simpl; [reflexivity|].
  destruct e; simpl; congruence.
Qed.

Lemma loadingHistory_app t1 t2 :
  loadingHistory (t1 ++ t2) = loadingHistory t1 ++ loadingHistory t2.
Proof.
  induction t1 as [|e t1 IH]; simpl; [reflexivity|].
  destruct e; simpl; congruence.
Qed.

Lemma awaitStates_app t1 t2 :
  awaitStates (t1 ++ t2) = awaitStates t1 ++ awaitStates t2.
Proof.
  induction t1 as [|e t1 IH]; simpl; [reflexivity|].
  destruct e; simpl; congruence.
Qed.

Lemma withMessages_same s : withMessages s (messages s) = s.
Proof. now destruct s. Qed.

(* ================================================================= *)
(** ** The streaming loop *)

(** A run of the loop: how it completes, the state it leaves, and what
    its trace shows. *)
Lemma forAwait_streamBody g stream : forall acc s,
  exists tr,
    forAwait stream acc (streamBody g) s
    = (match failureOf stream with
       | None => Normal (acc ++ concat (fragmentsOf stream))
       | Some e => Throw e
       end,
       withMessages s
         (last (loopHistory g acc (fragmentsOf stream) (messages s))
               (messages s)),
       tr)
    /\ messagesHistory tr
       = loopHistory g acc (fragmentsOf stream) (messages s)
    /\ loadingHistory tr = []
    /\ Forall (fun a => isLoading a = isLoading s /\ chat a = chat s)
              (awaitStates tr).
Proof.
  induction stream as [|chunk rest IH|e]; intros acc s.
  - exists [EvAwait s]. simpl. rewrite app_nil_r, withMessages_same.
    repeat split; auto.
  - destruct (IH (acc ++ chunk_text chunk)
                 (withMessages s (g (acc ++ chunk_text chunk) (messages s))))
      as (tr & Hrun & Hm & Hl & Ha).
    exists (EvAwait s :: EvSetMessages (g (acc ++ chunk_text chunk) (messages s))
              :: tr).
    split; [|split; [|split]].
    + cbn [forAwait]. unfold bind at 1. unfold await at 1.
      unfold bind at 1. unfold streamBody at 1.
      unfold bind at 1. unfold setMessages at 1. unfold ret at 1.
      cbn [fst snd app]. fold (withMessages s (g (acc ++ chunk_text chunk) (messages s))).
      rewrite Hrun. cbn [fragmentsOf failureOf concat loopHistory].
      rewrite last_cons_default, app_assoc. reflexivity.
    + simpl. now rewrite Hm.
    + simpl. exact Hl.
    + simpl. constructor; [split; reflexivity|]. exact Ha.
  - exists [EvAwait s]. simpl. rewrite withMessages_same.
    repeat split; auto.
Qed.

Lemma loopHistory_const (m0 : Message) acc fs ms :
  loopHistory (fun t _ => [withText m0 t]) acc fs ms
  = map (fun p => [withText m0 p]) (accumulated acc fs).
Proof.
  revert acc ms. induction fs as [|f fs IH]; intros; simpl; [reflexivity|].
  now rewrite IH.
Qed.

Lemma last_map {A B} (f : A -> B) (l : list A) (d : A) :
  last (map f l) (f d) = f (last l d).
Proof.
  induction l as [|x l IH]; [reflexivity|].
  destruct l; [reflexivity|]. exact IH.
Qed.

(* ================================================================= *)
(** ** Runs of [initializeChat] *)

Lemma initializeChat_creation_fails ai env s e :
  create_failure env = Some e ->
  initializeChat ai env s
  = (Normal tt,
     {| chat := chat s; messages := [errorInitMessage];
        userInput := userInput s; isLoading := false |},
     [EvSetIsLoading true;
      EvConsoleError (js "Initialization failed:") e;
      EvSetMessages [errorInitMessage];
      EvSetIsLoading false]).
Proof.
  intros Hc. unfold initializeChat, tryCatchFinally.
  unfold bind at 1. unfold setIsLoading at 1.
  unfold bind at 1. rewrite Hc. reflexivity.
Qed.

Lemma initializeChat_send_rejected ai env s e :
  create_failure env = None ->
  init_sendMessageStream env (sessionOf ai) (js "Hello!") = Throw e ->
  initializeChat ai env s
  = (Normal tt,
     {| chat := Some (sessionOf ai); messages := [errorInitMessage];
        userInput := userInput s; isLoading := false |},
     [EvSetIsLoading true;
      EvSetChat (sessionOf ai);
      EvSetMessages [initialBotMessage env []];
      EvAwait {| chat := Some (sessionOf ai);
                 messages := [initialBotMessage env []];
                 userInput := userInput s; isLoading := true |};
      EvConsoleError (js "Initialization failed:") e;
      EvSetMessages [errorInitMessage];
      EvSetIsLoading false]).
Proof.
  intros Hc Hs. unfold initializeChat, tryCatchFinally.
  unfold bind at 1. unfold setIsLoading at 1.
  unfold bind at 1. rewrite Hc. unfold createChatSession, call.
  fold (sessionOf ai).
  unfold bind at 1. unfold setChat at 1.
  unfold bind at 1. unfold setMessagesTo at 1, setMessages at 1.
  unfold bind at 1. rewrite Hs. reflexivity.
Qed.

Lemma initializeChat_streaming ai env s stream :
  create_failure env = None ->
  init_sendMessageStream env (sessionOf ai) (js "Hello!") = Normal stream ->
  exists tr,
    initializeChat ai env s
    = (Normal tt,
       {| chat := Some (sessionOf ai);
          messages :=
            match failureOf stream with
            | None => [initialBotMessage env (concat (fragmentsOf stream))]
            | Some _ => [errorInitMessage]
            end;
          userInput := userInput s; isLoading := false |},
       [EvSetIsLoading true;
        EvSetChat (sessionOf ai);
        EvSetMessages [initialBotMessage env []];
        EvAwait {| chat := Some (sessionOf ai);
                   messages := [initialBotMessage env []];
                   userInput := userInput s; isLoading := true |}]
       ++ tr
       ++ match failureOf stream with
          | None => [EvSetIsLoading false]
          | Some e => [EvConsoleError (js "Initialization failed:") e;
                       EvSetMessages [errorInitMessage];
                       EvSetIsLoading false]
          end)
    /\ messagesHistory tr
       = map (fun p => [initialBotMessage env p])
             (accumulated [] (fragmentsOf stream))
    /\ loadingHistory tr = []
    /\ Forall (fun a => isLoading a = true) (awaitStates tr).
Proof.
  intros Hc Hs.
  set (s2 := {| chat := Some (sessionOf ai);
                messages := [initialBotMessage env []];
                userInput := userInput s; isLoading := true |}).
  destruct (forAwait_streamBody
              (fun t _ => [withText (initialBotMessage env []) t])
              stream [] s2) as (tr & Hrun & Hm & Hl & Ha).
  exists tr. split; [|split; [|split]].
  - unfold initializeChat, tryCatchFinally.
    unfold bind at 1. unfold setIsLoading at 1.
    unfold bind at 1. rewrite Hc. unfold createChatSession, call.
    fold (sessionOf ai).
    unfold bind at 1. unfold setChat at 1.
    unfold bind at 1. unfold setMessagesTo at 1, setMessages at 1.
    unfold bind at 1. rewrite Hs. unfold await at 1.
    unfold bind at 1.
    cbn [chat messages userInput isLoading].
    match goal with
    | |- context [forAwait stream [] ?b ?st] =>
        change (forAwait stream [] b st)
          with (@forAwait JsString stream [] (streamBody
                  (fun t _ => [withText (initialBotMessage env []) t])) s2)
    end.
    rewrite Hrun. rewrite loopHistory_const.
    change (messages s2) with ((fun p => [withText (initialBotMessage env []) p]) []).
    rewrite last_map, accumulated_last.
    destruct (failureOf stream); cbn; rewrite ?app_nil_r; reflexivity.
  - rewrite Hm, loopHistory_const. reflexivity.
  - exact Hl.
  - eapply Forall_impl; [|exact Ha]. intros a [H _]. exact H.
Qed.

(* ================================================================= *)
(** ** The merge step *)

Lemma mergeChunk_length b p ms : length (mergeChunk b p ms) = length ms.
Proof. apply length_map. Qed.

Lemma mergeChunk_app b p ms1 ms2 :
  mergeChunk b p (ms1 ++ ms2) = mergeChunk b p ms1 ++ mergeChunk b p ms2.
Proof. apply map_app. Qed.

Lemma mergeChunk_ids b p ms : map id (mergeChunk b p ms) = map id ms.
Proof.
  unfold mergeChunk. rewrite map_map. apply map_ext.
  intros m. now destruct (Js.eqb (id m) b).
Qed.

Lemma mergeChunk_senders b p ms :
  map sender (mergeChunk b p ms) = map sender ms.
Proof.
  unfold mergeChunk. rewrite map_map. apply map_ext.
  intros m. now destruct (Js.eqb (id m) b).
Qed.

Lemma mergeChunk_mergeChunk b p q ms :
  mergeChunk b q (mergeChunk b p ms) = mergeChunk b q ms.
Proof.
  unfold mergeChunk. rewrite map_map. apply map_ext. intros m.
  destruct (Js.eqb (id m) b) eqn:E; simpl; now rewrite E.
Qed.

Lemma mergeChunk_unrelated b p ms :
  Forall (fun m => id m <> b) ms -> mergeChunk b p ms = ms.
Proof.
  induction 1 as [|m ms Hm _ IH]; simpl; [reflexivity|].
  rewrite IH. destruct (eqb_spec (id m) b); congruence.
Qed.

Lemma mergeChunk_mergedInto b p ms : mergedInto b p ms (mergeChunk b p ms).
Proof.
  split; [apply mergeChunk_length|].
  intros i m Hi. unfold mergeChunk.
  rewrite nth_error_map, Hi. simpl.
  eexists; split; [reflexivity|].
  destruct (eqb_spec (id m) b); split;
    solve [reflexivity | congruence].
Qed.

Lemma loopHistory_merge b acc fs ms :
  loopHistory (mergeChunk b) acc fs ms
  = map (fun p => mergeChunk b p ms) (accumulated acc fs).
Proof.
  revert acc ms. induction fs as [|f fs IH]; intros; simpl; [reflexivity|].
  rewrite IH. f_equal. apply map_ext. intros p. apply mergeChunk_mergeChunk.
Qed.

(** The list after the whole stream was merged into [ms]. *)
Lemma merged_last b fs ms :
  last (map (fun p => mergeChunk b p ms) (accumulated [] fs)) ms
  = match fs with
    | [] => ms
    | _ :: _ => mergeChunk b (concat fs) ms
    end.
Proof.
  destruct fs as [|f fs]; [reflexivity|].
  cbn [accumulated map]. rewrite last_cons_default.
  rewrite (last_map (fun p => mergeChunk b p ms)), accumulated_last.
  reflexivity.
Qed.

(* ================================================================= *)
(** ** Runs of [handleSendMessage] *)

Lemma handleSendMessage_ignored env s :
  ignoresSubmit s = true -> handleSendMessage env s = (Normal tt, s, []).
Proof. intros H. unfold handleSendMessage. now rewrite H. Qed.

Lemma accepted_has_session s :
  ignoresSubmit s = false -> exists c, chat s = Some c.
Proof.
  unfold ignoresSubmit. destruct (chat s) as [c|].
  - intros _. now exists c.
  - now rewrite orb_true_r.
Qed.

Lemma handleSendMessage_send_rejected env s c e :
  ignoresSubmit s = false -> chat s = Some c ->
  sendMessageStream env c (userInput s) = Throw e ->
  handleSendMessage env s
  = (Normal tt,
     {| chat := chat s;
        messages := (messages s ++ [userMessageOf env (userInput s)])
                    ++ [errorMessageOf env];
        userInput := []; isLoading := false |},
     [EvSetMessages (messages s ++ [userMessageOf env (userInput s)]);
      EvSetUserInput [];
      EvSetIsLoading true;
      EvAwait {| chat := chat s;
                 messages := messages s ++ [userMessageOf env (userInput s)];
                 userInput := []; isLoading := true |};
      EvConsoleError (js "Error sending message:") e;
      EvSetMessages ((messages s ++ [userMessageOf env (userInput s)])
                     ++ [errorMessageOf env]);
      EvSetIsLoading false]).
Proof.
  intros Hg Hc Hs. unfold handleSendMessage. rewrite Hg, Hc.
  unfold tryCatchFinally.
  unfold bind at 1. unfold setMessages at 1.
  unfold bind at 1. unfold setUserInput at 1.
  unfold bind at 1. unfold setIsLoading at 1.
  unfold bind at 1. rewrite Hs. cbn. now rewrite ?Hc.
Qed.

Lemma handleSendMessage_streaming env s c stream :
  ignoresSubmit s = false -> chat s = Some c ->
  sendMessageStream env c (userInput s) = Normal stream ->
  let withUser := messages s ++ [userMessageOf env (userInput s)] in
  let withPlaceholder := withUser ++ [botMessage env []] in
  let streamed :=
    match fragmentsOf stream with
    | [] => withPlaceholder
    | _ :: _ => mergeChunk (botMessageIdOf env)
                  (concat (fragmentsOf stream)) withPlaceholder
    end in
  exists tr,
    handleSendMessage env s
    = (Normal tt,
       {| chat := chat s;
          messages :=
            match failureOf stream with
            | None => streamed
            | Some _ => streamed ++ [errorMessageOf env]
            end;
          userInput := []; isLoading := false |},
       [EvSetMessages withUser;
        EvSetUserInput [];
        EvSetIsLoading true;
        EvAwait {| chat := chat s; messages := withUser;
                   userInput := []; isLoading := true |};
        EvSetMessages withPlaceholder]
       ++ tr
       ++ match failureOf stream with
          | None => [EvSetIsLoading false]
          | Some e => [EvConsoleError (js "Error sending message:") e;
                       EvSetMessages (streamed ++ [errorMessageOf env]);
                       EvSetIsLoading false]
          end)
    /\ messagesHistory tr
       = map (fun p => mergeChunk (botMessageIdOf env) p withPlaceholder)
             (accumulated [] (fragmentsOf stream))
    /\ loadingHistory tr = []
    /\ Forall (fun a => isLoading a = true) (awaitStates tr).
Proof.
  intros Hg Hc Hs withUser withPlaceholder streamed.
  set (s4 := {| chat := chat s; messages := withPlaceholder;
                userInput := []; isLoading := true |}).
  destruct (forAwait_streamBody (mergeChunk (botMessageIdOf env))
              stream [] s4) as (tr & Hrun & Hm & Hl & Ha).
  rewrite loopHistory_merge in Hrun, Hm.
  change (messages s4) with withPlaceholder in Hrun, Hm.
  rewrite merged_last in Hrun. fold streamed in Hrun.
  exists tr. split; [|split; [|split]].
  - unfold handleSendMessage. rewrite Hg, Hc.
    unfold tryCatchFinally.
    unfold bind at 1. unfold setMessages at 1.
    unfold bind at 1. unfold setUserInput at 1.
    unfold bind at 1. unfold setIsLoading at 1.
    unfold bind at 1. rewrite Hs. unfold await at 1.
    unfold bind at 1. unfold setMessages at 1.
    unfold bind at 1.
    cbn [chat messages userInput isLoading].
    match goal with
    | |- context [forAwait stream [] ?b ?st] =>
        change (forAwait stream [] b st)
          with (@forAwait JsString stream []
                  (streamBody (mergeChunk (botMessageIdOf env))) s4)
    end.
    rewrite Hrun.
    destruct (failureOf stream); cbn; rewrite ?app_nil_r, ?Hc; reflexivity.
  - exact Hm.
  - exact Hl.
  - eapply Forall_impl; [|exact Ha]. intros a [H _]. exact H.
Qed.

Lemma lastMessage_snoc ms m : lastMessage (ms ++ [m]) = Some m.
Proof.
  unfold lastMessage. rewrite length_app. simpl.
  replace (length ms + 1 - 1) with (length ms) by lia.
  rewrite nth_error_app2 by lia. now rewrite Nat.sub_diag.
Qed.

Lemma mergeChunk_placeholder env p t ms :
  mergeChunk (botMessageIdOf env) p (ms ++ [botMessage env t])
  = mergeChunk (botMessageIdOf env) p ms ++ [botMessage env p].
Proof.
  rewrite mergeChunk_app. f_equal. simpl.
  now rewrite eqb_refl.
Qed.

(* ================================================================= *)
(** ** Streaming *)

(** C1. During a successful streamed reply the target BOT message's
    text passes through exactly the successive prefix-concatenations of
    the fragments, the empty one first, one state update per fragment
    and in arrival order, and ends as their concatenation: in
    [initializeChat] the published list is always the single
    placeholder; in [handleSendMessage] the placeholder is the last
    message of every list published after the user's message. *)
Theorem streamed_text_follows_prefixes :
  (forall ai env s stream,
     create_failure env = None ->
     init_sendMessageStream env (sessionOf ai) (js "Hello!") = Normal stream ->
     failureOf stream = None ->
     messagesHistory (traceOf (initializeChat ai env s))
     = map (fun p => [initialBotMessage env p])
           (prefixConcats (fragmentsOf stream))
     /\ messages (finalState (initializeChat ai env s))
        = [initialBotMessage env (concat (fragmentsOf stream))])
  /\
  (forall env s c stream,
     ignoresSubmit s = false -> chat s = Some c ->
     sendMessageStream env c (userInput s) = Normal stream ->
     failureOf stream = None ->
     exists history,
       messagesHistory (traceOf (handleSendMessage env s))
       = (messages s ++ [userMessageOf env (userInput s)]) :: history
       /\ map lastMessage history
          = map (fun p => Some (botMessage env p))
                (prefixConcats (fragmentsOf stream))
       /\ lastMessage (messages (finalState (handleSendMessage env s)))
          = Some (botMessage env (concat (fragmentsOf stream)))).
Proof.
  split.
  - intros ai env s stream Hc Hs Hok.
    destruct (initializeChat_streaming ai env s stream Hc Hs) as (tr & Hrun & Hm & _).
    rewrite Hrun, Hok. unfold traceOf, finalState. cbn [fst snd messages].
    split; [|reflexivity].
    rewrite !messagesHistory_app, Hm. cbn [messagesHistory app].
    rewrite app_nil_r. reflexivity.
  - intros env s c stream Hg Hc Hs Hok.
    destruct (handleSendMessage_streaming env s c stream Hg Hc Hs)
      as (tr & Hrun & Hm & _).
    rewrite Hrun, Hok. unfold traceOf, finalState. cbn [fst snd messages].
    eexists. split; [|split].
    + rewrite !messagesHistory_app, Hm. cbn [messagesHistory app].
      rewrite app_nil_r. reflexivity.
    + unfold prefixConcats. cbn [map]. rewrite lastMessage_snoc.
      f_equal. rewrite map_map. apply map_ext. intros p.
      now rewrite mergeChunk_placeholder, lastMessage_snoc.
    + destruct (fragmentsOf stream) as [|f fs].
      * apply lastMessage_snoc.
      * now rewrite mergeChunk_placeholder, lastMessage_snoc.
Qed.

(* ================================================================= *)
(** ** Error recovery *)

Lemma accumulated_snoc acc f fs :
  exists init, accumulated acc (f :: fs) = init ++ [acc ++ concat (f :: fs)].
Proof.
  revert acc f. induction fs as [|g fs IH]; intros acc f.
  - exists []. simpl. now rewrite app_nil_r.
  - destruct (IH (acc ++ f) g) as (init & Hi).
    exists ((acc ++ f) :: init).
    change (accumulated acc (f :: g :: fs))
      with ((acc ++ f) :: accumulated (acc ++ f) (g :: fs)).
    rewrite Hi. cbn [concat app]. now rewrite <- app_assoc.
Qed.

(** The message lists published by a streamed turn end with the list
    the stream left. *)
Lemma streamed_history_ends env ms fs :
  let withPlaceholder := ms ++ [botMessage env []] in
  exists earlier,
    withPlaceholder
      :: map (fun p => mergeChunk (botMessageIdOf env) p withPlaceholder)
             (accumulated [] fs)
    = earlier
      ++ [match fs with
          | [] => withPlaceholder
          | _ :: _ => mergeChunk (botMessageIdOf env) (concat fs)
                        withPlaceholder
          end].
Proof.
  intros withPlaceholder. destruct fs as [|f fs].
  - now exists [].
  - destruct (accumulated_snoc [] f fs) as (init & ->).
    exists (withPlaceholder
              :: map (fun p => mergeChunk (botMessageIdOf env) p withPlaceholder)
                     init).
    rewrite map_app. reflexivity.
Qed.

(** C3. Error recovery is asymmetric.  When initialization fails (at
    session creation, at the initiation of the bootstrap turn or while
    its reply streams) the message list becomes the single synthetic
    BOT error message.  When a user turn fails (at initiation or while
    streaming) the last state update appends exactly one synthetic BOT
    error message to the list as it stood when the failure occurred,
    and nothing else; of the messages from before the turn, every one
    whose identifier is not the placeholder's is still at its position,
    unmodified (only the merge step of the stream rewrites a message,
    selecting it by the placeholder's identifier). *)
Theorem error_recovery_is_asymmetric :
  (forall ai env s,
     initFails ai env ->
     messages (finalState (initializeChat ai env s)) = [errorInitMessage]
     /\ sender errorInitMessage = BOT)
  /\
  (forall env s c,
     ignoresSubmit s = false -> chat s = Some c ->
     sendFails env c (userInput s) ->
     exists earlier before,
       messagesHistory (traceOf (handleSendMessage env s))
       = earlier ++ [before; before ++ [errorMessageOf env]]
       /\ messages (finalState (handleSendMessage env s))
          = before ++ [errorMessageOf env]
       /\ sender (errorMessageOf env) = BOT
       /\ forall i m, nth_error (messages s) i = Some m ->
            id m <> botMessageIdOf env ->
            nth_error (messages (finalState (handleSendMessage env s))) i
            = Some m).
Proof.
  split.
  - intros ai env s [[e Hc] | [Hc [[e Hs] | (stream & e & Hs & Hf)]]];
      (split; [|reflexivity]).
    + rewrite (initializeChat_creation_fails ai env s e Hc). reflexivity.
    + rewrite (initializeChat_send_rejected ai env s e Hc Hs). reflexivity.
    + destruct (initializeChat_streaming ai env s stream Hc Hs)
        as (tr & Hrun & _).
      rewrite Hrun, Hf. reflexivity.
  - intros env s c Hg Hc [[e Hs] | (stream & e & Hs & Hf)].
    + rewrite (handleSendMessage_send_rejected env s c e Hg Hc Hs).
      unfold traceOf, finalState. cbn [fst snd messages messagesHistory].
      exists [], (messages s ++ [userMessageOf env (userInput s)]).
      split; [|split; [|split]]; try reflexivity.
      intros i m Hi _. rewrite <- app_assoc.
      rewrite nth_error_app1; [exact Hi|].
      apply nth_error_Some. congruence.
    + destruct (handleSendMessage_streaming env s c stream Hg Hc Hs)
        as (tr & Hrun & Hm & _).
      rewrite Hrun, Hf. unfold traceOf, finalState.
      cbn [fst snd messages].
      rewrite !messagesHistory_app, Hm. cbn [messagesHistory app].
      destruct (streamed_history_ends env
                  (messages s ++ [userMessageOf env (userInput s)])
                  (fragmentsOf stream)) as (earlier & He).
      cbv zeta in He.
      set (streamed :=
             match fragmentsOf stream with
             | [] => _
             | _ :: _ => _
             end) in *.
      exists ((messages s ++ [userMessageOf env (userInput s)]) :: earlier),
             streamed.
      split; [|split; [|split]].
      * rewrite (app_comm_cons _ _ (_ ++ [botMessage env []])), He.
        now rewrite <- app_assoc.
      * reflexivity.
      * reflexivity.
      * intros i m Hi Hid.
        assert (Hlt : i < length (messages s))
          by (apply nth_error_Some; congruence).
        subst streamed. rewrite nth_error_app1.
        2:{ destruct (fragmentsOf stream);
            rewrite ?mergeChunk_length, !length_app; lia. }
        destruct (fragmentsOf stream) as [|f fs].
        -- rewrite <- app_assoc. now rewrite nth_error_app1.
        -- rewrite <- app_assoc, mergeChunk_app.
           rewrite nth_error_app1 by (now rewrite mergeChunk_length).
           destruct (mergeChunk_mergedInto (botMessageIdOf env)
                       (concat (f :: fs)) (messages s)) as [_ Hpos].
           destruct (Hpos i m Hi) as (m' & Hm' & Hkeep & _).
           rewrite Hm'. f_equal. now apply Hkeep.
Qed.

(* ================================================================= *)
(** ** The shape of every run *)

Lemma bind_normal {A B} (m : M A) (f : A -> M B) s a s1 t1 :
  m s = (Normal a, s1, t1) ->
  bind m f s
  = (fst (fst (f a s1)), finalState (f a s1), t1 ++ traceOf (f a s1)).
Proof.
  intros H. unfold bind, finalState, traceOf. rewrite H.
  now destruct (f a s1) as [[r s2] t2].
Qed.

(** [initializeChat] always returns; it sets the pending flag first,
    clears it last, and touches it nowhere in between. *)
Lemma initializeChat_shape ai env s :
  exists c' ms mid,
    initializeChat ai env s
    = (Normal tt,
       {| chat := c'; messages := ms;
          userInput := userInput s; isLoading := false |},
       EvSetIsLoading true :: mid ++ [EvSetIsLoading false])
    /\ loadingHistory mid = []
    /\ Forall (fun a => isLoading a = true) (awaitStates mid)
    /\ (create_failure env = None -> c' = Some (sessionOf ai)).
Proof.
  destruct (create_failure env) as [e|] eqn:Hc.
  - rewrite (initializeChat_creation_fails ai env s e Hc).
    exists (chat s), [errorInitMessage],
      [EvConsoleError (js "Initialization failed:") e;
       EvSetMessages [errorInitMessage]].
    split; [reflexivity|]. split; [reflexivity|].
    split; [constructor | discriminate].
  - destruct (init_sendMessageStream env (sessionOf ai) (js "Hello!"))
      as [stream|e] eqn:Hs.
    + destruct (initializeChat_streaming ai env s stream Hc Hs)
        as (tr & Hrun & _ & Hl & Ha).
      rewrite Hrun. destruct (failureOf stream) as [e|].
      * do 2 eexists.
        exists ([EvSetChat (sessionOf ai);
                 EvSetMessages [initialBotMessage env []];
                 EvAwait {| chat := Some (sessionOf ai);
                            messages := [initialBotMessage env []];
                            userInput := userInput s; isLoading := true |}]
                ++ tr
                ++ [EvConsoleError (js "Initialization failed:") e;
                    EvSetMessages [errorInitMessage]]).
        split; [|split; [|split]].
        -- cbn [app]. rewrite <- ?app_assoc. reflexivity.
        -- rewrite !loadingHistory_app, Hl. reflexivity.
        -- rewrite !awaitStates_app. cbn [awaitStates app].
           rewrite app_nil_r. constructor; [reflexivity | exact Ha].
        -- reflexivity.
      * do 2 eexists.
        exists ([EvSetChat (sessionOf ai);
                 EvSetMessages [initialBotMessage env []];
                 EvAwait {| chat := Some (sessionOf ai);
                            messages := [initialBotMessage env []];
                            userInput := userInput s; isLoading := true |}]
                ++ tr).
        split; [|split; [|split]].
        -- cbn [app]. rewrite <- ?app_assoc. reflexivity.
        -- rewrite !loadingHistory_app, Hl. reflexivity.
        -- rewrite !awaitStates_app. cbn [awaitStates app].
           constructor; [reflexivity | exact Ha].
        -- reflexivity.
    + rewrite (initializeChat_send_rejected ai env s e Hc Hs).
      do 2 eexists.
      exists [EvSetChat (sessionOf ai);
              EvSetMessages [initialBotMessage env []];
              EvAwait {| chat := Some (sessionOf ai);
                         messages := [initialBotMessage env []];
                         userInput := userInput s; isLoading := true |};
              EvConsoleError (js "Initialization failed:") e;
              EvSetMessages [errorInitMessage]].
      split; [reflexivity|]. split; [reflexivity|].
      split; [|reflexivity]. cbn [awaitStates].
      constructor; [reflexivity | constructor].
Qed.

(** An accepted [handleSendMessage] always returns; after the user's
    message is appended and the input cleared it sets the pending flag,
    clears it last, and touches it nowhere in between. *)
Lemma handleSendMessage_shape env s :
  ignoresSubmit s = false ->
  exists ms mid,
    handleSendMessage env s
    = (Normal tt,
       {| chat := chat s; messages := ms;
          userInput := []; isLoading := false |},
       [EvSetMessages (messages s ++ [userMessageOf env (userInput s)]);
        EvSetUserInput [];
        EvSetIsLoading true] ++ mid ++ [EvSetIsLoading false])
    /\ loadingHistory mid = []
    /\ Forall (fun a => isLoading a = true) (awaitStates mid).
Proof.
  intros Hg. destruct (accepted_has_session s Hg) as (c & Hc).
  destruct (sendMessageStream env c (userInput s)) as [stream|e] eqn:Hs.
  - destruct (handleSendMessage_streaming env s c stream Hg Hc Hs)
      as (tr & Hrun & _ & Hl & Ha).
    rewrite Hrun. destruct (failureOf stream) as [e|].
    + eexists.
      exists ([EvAwait {| chat := chat s;
                          messages := messages s
                                      ++ [userMessageOf env (userInput s)];
                          userInput := []; isLoading := true |};
               EvSetMessages ((messages s ++ [userMessageOf env (userInput s)])
                              ++ [botMessage env []])]
              ++ tr
              ++ [EvConsoleError (js "Error sending message:") e;
                  EvSetMessages
                    (match fragmentsOf stream with
                     | [] => (messages s ++ [userMessageOf env (userInput s)])
                             ++ [botMessage env []]
                     | _ :: _ =>
                         mergeChunk (botMessageIdOf env)
                           (concat (fragmentsOf stream))
                           ((messages s ++ [userMessageOf env (userInput s)])
                            ++ [botMessage env []])
                     end ++ [errorMessageOf env])]).
      split; [|split].
      * cbn [app]. rewrite <- ?app_assoc. reflexivity.
      * rewrite !loadingHistory_app, Hl. reflexivity.
      * rewrite !awaitStates_app. cbn [awaitStates app].
        rewrite app_nil_r. constructor; [reflexivity | exact Ha].
    + eexists.
      exists ([EvAwait {| chat := chat s;
                          messages := messages s
                                      ++ [userMessageOf env (userInput s)];
                          userInput := []; isLoading := true |};
               EvSetMessages ((messages s ++ [userMessageOf env (userInput s)])
                              ++ [botMessage env []])]
              ++ tr).
      split; [|split].
      * cbn [app]. rewrite <- ?app_assoc. reflexivity.
      * rewrite !loadingHistory_app, Hl. reflexivity.
      * rewrite !awaitStates_app. cbn [awaitStates app].
        constructor; [reflexivity | exact Ha].
  - rewrite (handleSendMessage_send_rejected env s c e Hg Hc Hs).
    eexists.
    exists [EvAwait {| chat := chat s;
                       messages := messages s
                                   ++ [userMessageOf env (userInput s)];
                       userInput := []; isLoading := true |};
            EvConsoleError (js "Error sending message:") e;
            EvSetMessages ((messages s ++ [userMessageOf env (userInput s)])
                           ++ [errorMessageOf env])].
    split; [reflexivity|]. split; [reflexivity|].
    cbn [awaitStates]. constructor; [reflexivity | constructor].
Qed.

(* ================================================================= *)
(** ** The pending flag *)

Lemma playTurn_run t s :
  playTurn t s
  = (let s1 := {| chat := chat s; messages := messages s;
                  userInput := typed t; isLoading := isLoading s |} in
     (fst (fst (handleSendMessage (turn_env t) s1)),
      finalState (handleSendMessage (turn_env t) s1),
      [EvSetUserInput (typed t)]
      ++ traceOf (handleSendMessage (turn_env t) s1))).
Proof. unfold playTurn. now erewrite bind_normal by reflexivity. Qed.

(** Between operations the flag is down: a turn started with the flag
    down returns with the flag down, whether or not it was accepted. *)
Lemma playTurn_idle t s :
  isLoading s = false ->
  fst (fst (playTurn t s)) = Normal tt
  /\ isLoading (finalState (playTurn t s)) = false
  /\ chat (finalState (playTurn t s)) = chat s.
Proof.
  intros Hidle. rewrite playTurn_run. cbv zeta.
  set (s1 := {| chat := chat s; messages := messages s;
                userInput := typed t; isLoading := isLoading s |}).
  unfold finalState at 1 2. cbn [fst snd].
  destruct (ignoresSubmit s1) eqn:Hg.
  - rewrite (handleSendMessage_ignored _ _ Hg). cbn. auto.
  - destruct (handleSendMessage_shape (turn_env t) s1 Hg)
      as (ms & mid & Hrun & _).
    rewrite Hrun. cbn. auto.
Qed.

Lemma playTurns_idle ts : forall s,
  isLoading s = false ->
  fst (fst (playTurns ts s)) = Normal tt
  /\ isLoading (finalState (playTurns ts s)) = false
  /\ chat (finalState (playTurns ts s)) = chat s.
Proof.
  induction ts as [|t ts IH]; intros s Hidle.
  - cbn. auto.
  - destruct (playTurn_idle t s Hidle) as (Hr & Hl & Hc).
    cbn [playTurns].
    destruct (playTurn t s) as [[r s1] t1] eqn:Ht.
    cbn [fst snd finalState] in Hr, Hl, Hc. unfold finalState in Hl, Hc.
    cbn [fst snd] in Hl, Hc. subst r.
    rewrite (bind_normal _ _ _ _ _ _ Ht).
    unfold finalState at 1 2. cbn [fst snd].
    destruct (IH s1 Hl) as (Hr' & Hl' & Hc').
    rewrite <- Hc. auto.
Qed.

(** C4. The pending flag brackets every send/stream operation.
    [initializeChat] raises it as its first action and an accepted
    [handleSendMessage] raises it in the same synchronous step that
    appends the user's message; from there on it is written only once
    more, by the last action of the run, which clears it; so the
    handler is suspended on the provider only with the flag up, and
    every path, success or failure, returns with the flag down.  An
    ignored submission starts no operation and changes nothing, and
    between the operations of a conversation the flag is down. *)
Theorem pending_brackets_every_operation :
  (forall ai env s,
     (exists mid,
        traceOf (initializeChat ai env s)
        = EvSetIsLoading true :: mid ++ [EvSetIsLoading false]
        /\ loadingHistory mid = [])
     /\ Forall (fun a => isLoading a = true)
               (awaitStates (traceOf (initializeChat ai env s)))
     /\ fst (fst (initializeChat ai env s)) = Normal tt
     /\ isLoading (finalState (initializeChat ai env s)) = false)
  /\
  (forall env s,
     ignoresSubmit s = false ->
     (exists mid,
        traceOf (handleSendMessage env s)
        = [EvSetMessages (messages s ++ [userMessageOf env (userInput s)]);
           EvSetUserInput [];
           EvSetIsLoading true] ++ mid ++ [EvSetIsLoading false]
        /\ loadingHistory mid = [])
     /\ Forall (fun a => isLoading a = true)
               (awaitStates (traceOf (handleSendMessage env s)))
     /\ fst (fst (handleSendMessage env s)) = Normal tt
     /\ isLoading (finalState (handleSendMessage env s)) = false)
  /\
  (forall env s,
     ignoresSubmit s = true ->
     handleSendMessage env s = (Normal tt, s, []))
  /\
  (forall ai env ts,
     isLoading (finalState (conversation ai env ts initialState)) = false).
Proof.
  split; [|split; [|split]].
  - intros ai env s.
    destruct (initializeChat_shape ai env s)
      as (c' & ms & mid & Hrun & Hl & Ha & _).
    rewrite Hrun. unfold traceOf, finalState. cbn [fst snd isLoading].
    split; [now exists mid|]. split; [|split; reflexivity].
    cbn [awaitStates]. rewrite awaitStates_app. cbn [awaitStates].
    now rewrite app_nil_r.
  - intros env s Hg.
    destruct (handleSendMessage_shape env s Hg) as (ms & mid & Hrun & Hl & Ha).
    rewrite Hrun. unfold traceOf, finalState. cbn [fst snd isLoading].
    split; [now exists mid|]. split; [|split; reflexivity].
    cbn [awaitStates app]. rewrite awaitStates_app. cbn [awaitStates].
    now rewrite app_nil_r.
  - exact handleSendMessage_ignored.
  - intros ai env ts. unfold conversation.
    destruct (initializeChat_shape ai env initialState)
      as (c' & ms & mid & Hrun & _).
    rewrite (bind_normal _ _ _ _ _ _ Hrun).
    unfold finalState at 1. cbn [fst snd].
    now apply playTurns_idle.
Qed.

(* ================================================================= *)
(** ** Submitting a turn *)

Lemma ignoresSubmit_true_iff s :
  ignoresSubmit s = true
  <-> blank (userInput s) = true \/ isLoading s = true \/ chat s = None.
Proof.
  unfold ignoresSubmit. rewrite trim_falsy_iff_blank.
  rewrite !orb_true_iff. destruct (chat s); intuition congruence.
Qed.

Lemma ignoresSubmit_false_iff s :
  ignoresSubmit s = false
  <-> blank (userInput s) = false /\ isLoading s = false /\ chat s <> None.
Proof.
  unfold ignoresSubmit. rewrite trim_falsy_iff_blank.
  rewrite !orb_false_iff. destruct (chat s); intuition congruence.
Qed.

Lemma userTexts_app ms1 ms2 :
  userTexts (ms1 ++ ms2) = userTexts ms1 ++ userTexts ms2.
Proof. unfold userTexts. now rewrite filter_app, map_app. Qed.

Lemma userTagged_not_bot env m :
  userTagged m -> sender m = USER ->
  Js.eqb (id m) (botMessageIdOf env) = false.
Proof. intros Ht Hu. destruct (Ht Hu) as (z & ->). reflexivity. Qed.

Lemma userTexts_mergeChunk env p ms :
  Forall userTagged ms ->
  userTexts (mergeChunk (botMessageIdOf env) p ms) = userTexts ms.
Proof.
  induction 1 as [|m ms Hm _ IH]; [reflexivity|].
  change (mergeChunk (botMessageIdOf env) p (m :: ms))
    with ((if Js.eqb (id m) (botMessageIdOf env) then withText m p else m)
          :: mergeChunk (botMessageIdOf env) p ms).
  unfold userTexts in *. cbn [filter].
  set (m' := if Js.eqb (id m) (botMessageIdOf env) then withText m p else m).
  assert (Hsame : isUserMessage m' = isUserMessage m)
    by (subst m'; now destruct (Js.eqb (id m) (botMessageIdOf env))).
  rewrite Hsame. destruct (isUserMessage m) eqn:Hu; [|exact IH].
  cbn [map]. rewrite IH. f_equal. f_equal. subst m'.
  rewrite (userTagged_not_bot env m Hm); [reflexivity|].
  unfold isUserMessage in Hu. now destruct (sender m).
Qed.

Lemma userTagged_mergeChunk b p ms :
  Forall userTagged ms -> Forall userTagged (mergeChunk b p ms).
Proof.
  induction 1 as [|m ms Hm _ IH]; constructor; [|exact IH].
  destruct (Js.eqb (id m) b); exact Hm.
Qed.

Lemma userTagged_bot m : sender m = BOT -> userTagged m.
Proof. intros Hb Hu. congruence. Qed.

Lemma userTagged_userMessage env input : userTagged (userMessageOf env input).
Proof. intros _. now exists (NumberToString (now_user env)). Qed.

(** What an accepted turn leaves in the list: the messages from before
    the turn (rewritten only where the identifier is the placeholder's),
    the user's message, and BOT messages after it. *)
Lemma handleSendMessage_accepted_final env s :
  ignoresSubmit s = false ->
  exists kept tail,
    messages (finalState (handleSendMessage env s))
    = kept ++ userMessageOf env (userInput s) :: tail
    /\ map id kept = map id (messages s)
    /\ map sender kept = map sender (messages s)
    /\ Forall (fun m => sender m = BOT) tail
    /\ (Forall userTagged (messages s) ->
        userTexts kept = userTexts (messages s)
        /\ Forall userTagged kept).
Proof.
  intros Hg. destruct (accepted_has_session s Hg) as (c & Hc).
  destruct (sendMessageStream env c (userInput s)) as [stream|e] eqn:Hs.
  - destruct (handleSendMessage_streaming env s c stream Hg Hc Hs)
      as (tr & Hrun & _).
    rewrite Hrun. unfold finalState. cbn [fst snd messages].
    destruct (fragmentsOf stream) as [|f fs].
    + exists (messages s).
      destruct (failureOf stream);
        [exists [botMessage env []; errorMessageOf env]
        |exists [botMessage env []]];
        rewrite <- ?app_assoc; (split; [reflexivity|]);
        repeat (split; [reflexivity|]);
        (split; [repeat constructor | auto]).
    + exists (mergeChunk (botMessageIdOf env) (concat (f :: fs)) (messages s)).
      rewrite mergeChunk_placeholder, mergeChunk_app.
      change (mergeChunk (botMessageIdOf env) (concat (f :: fs))
                [userMessageOf env (userInput s)])
        with [userMessageOf env (userInput s)].
      destruct (failureOf stream);
        [exists [botMessage env (concat (f :: fs)); errorMessageOf env]
        |exists [botMessage env (concat (f :: fs))]];
        rewrite <- ?app_assoc; (split; [reflexivity|]);
        (split; [apply mergeChunk_ids|]);
        (split; [apply mergeChunk_senders|]);
        (split; [repeat constructor|]);
        intros Htag;
        (split; [now apply userTexts_mergeChunk
                | now apply userTagged_mergeChunk]).
  - rewrite (handleSendMessage_send_rejected env s c e Hg Hc Hs).
    unfold finalState. cbn [fst snd messages].
    exists (messages s), [errorMessageOf env].
    rewrite <- app_assoc. split; [reflexivity|].
    repeat (split; [reflexivity|]).
    split; [repeat constructor | auto].
Qed.

Lemma userTexts_bots ms :
  Forall (fun m => sender m = BOT) ms -> userTexts ms = [].
Proof.
  induction 1 as [|m ms Hm _ IH]; [reflexivity|].
  unfold userTexts in *. cbn [filter]. unfold isUserMessage at 1.
  now rewrite Hm.
Qed.

Lemma bots_userTagged ms :
  Forall (fun m => sender m = BOT) ms -> Forall userTagged ms.
Proof. apply Forall_impl. exact userTagged_bot. Qed.

Lemma initializeChat_final_bots ai env s :
  Forall (fun m => sender m = BOT)
         (messages (finalState (initializeChat ai env s))).
Proof.
  destruct (create_failure env) as [e|] eqn:Hc.
  - rewrite (initializeChat_creation_fails ai env s e Hc).
    repeat constructor.
  - destruct (init_sendMessageStream env (sessionOf ai) (js "Hello!"))
      as [stream|e] eqn:Hs.
    + destruct (initializeChat_streaming ai env s stream Hc Hs)
        as (tr & Hrun & _).
      rewrite Hrun. unfold finalState. cbn [fst snd messages].
      destruct (failureOf stream); repeat constructor.
    + rewrite (initializeChat_send_rejected ai env s e Hc Hs).
      repeat constructor.
Qed.

Lemma playTurn_userTexts t s :
  isLoading s = false -> chat s <> None ->
  Forall userTagged (messages s) ->
  userTexts (messages (finalState (playTurn t s)))
  = userTexts (messages s) ++ (if blank (typed t) then [] else [typed t])
  /\ Forall userTagged (messages (finalState (playTurn t s))).
Proof.
  intros Hidle Hchat Htag. rewrite playTurn_run. cbv zeta.
  set (s1 := {| chat := chat s; messages := messages s;
                userInput := typed t; isLoading := isLoading s |}).
  unfold finalState at 1 3. cbn [fst snd].
  destruct (blank (typed t)) eqn:Hb.
  - assert (Hg : ignoresSubmit s1 = true)
      by (apply ignoresSubmit_true_iff; now left).
    rewrite (handleSendMessage_ignored _ _ Hg).
    unfold finalState. cbn [fst snd]. subst s1. cbn [messages].
    now rewrite app_nil_r.
  - assert (Hg : ignoresSubmit s1 = false)
      by (apply ignoresSubmit_false_iff; now subst s1).
    destruct (handleSendMessage_accepted_final (turn_env t) s1 Hg)
      as (kept & tail & -> & _ & _ & Htail & Hkept).
    destruct (Hkept Htag) as (Hk1 & Hk2).
    split.
    + rewrite userTexts_app, Hk1.
      change (userMessageOf (turn_env t) (userInput s1) :: tail)
        with ([userMessageOf (turn_env t) (userInput s1)] ++ tail).
      rewrite userTexts_app, (userTexts_bots tail Htail).
      reflexivity.
    + apply Forall_app. split; [exact Hk2|].
      constructor; [apply userTagged_userMessage|].
      now apply bots_userTagged.
Qed.

Lemma playTurns_userTexts ts : forall s,
  isLoading s = false -> chat s <> None ->
  Forall userTagged (messages s) ->
  userTexts (messages (finalState (playTurns ts s)))
  = userTexts (messages s)
    ++ filter (fun t => negb (blank t)) (map typed ts).
Proof.
  induction ts as [|t ts IH]; intros s Hidle Hchat Htag.
  - cbn. now rewrite app_nil_r.
  - destruct (playTurn_idle t s Hidle) as (Hr & Hl & Hc).
    destruct (playTurn_userTexts t s Hidle Hchat Htag) as (Hu & Ht).
    cbn [playTurns].
    destruct (playTurn t s) as [[r s1] t1] eqn:Hp.
    unfold finalState in Hl, Hc, Hu, Ht. cbn [fst snd] in Hr, Hl, Hc, Hu, Ht.
    subst r. rewrite (bind_normal _ _ _ _ _ _ Hp).
    unfold finalState at 1. cbn [fst snd].
    rewrite IH; [|exact Hl|congruence|exact Ht].
    rewrite Hu, <- app_assoc. f_equal.
    cbn [map filter]. now destruct (blank (typed t)).
Qed.

(** C5, as the code has it.  [handleSendMessage] ignores the
    submission, leaving the whole state and hence the message count as
    they were, when the input is empty or whitespace-only, when the
    pending flag is up, or when no session exists.  Otherwise its first
    state update appends one USER message holding the literal input,
    and the list it leaves holds the earlier messages (same senders and
    identifiers), then that USER message, then only BOT messages.  Over
    a conversation whose session was created, the texts of the USER
    messages are the non-blank submitted texts in call order.  A
    session exists after [initializeChat] exactly when its creation
    succeeded, whether or not the bootstrap turn then failed. *)
Theorem submit_appends_the_user_message :
  (forall env s,
     blank (userInput s) = true \/ isLoading s = true \/ chat s = None ->
     handleSendMessage env s = (Normal tt, s, []))
  /\
  (forall env s,
     blank (userInput s) = false -> isLoading s = false -> chat s <> None ->
     (exists later,
        messagesHistory (traceOf (handleSendMessage env s))
        = (messages s ++ [userMessageOf env (userInput s)]) :: later)
     /\ text (userMessageOf env (userInput s)) = userInput s
     /\ sender (userMessageOf env (userInput s)) = USER
     /\ exists kept tail,
          messages (finalState (handleSendMessage env s))
          = kept ++ userMessageOf env (userInput s) :: tail
          /\ map id kept = map id (messages s)
          /\ map sender kept = map sender (messages s)
          /\ Forall (fun m => sender m = BOT) tail)
  /\
  (forall ai env ts,
     create_failure env = None ->
     userTexts (messages (finalState (conversation ai env ts initialState)))
     = filter (fun t => negb (blank t)) (map typed ts))
  /\
  (forall ai env,
     chat (finalState (initializeChat ai env initialState))
     = match create_failure env with
       | None => Some (sessionOf ai)
       | Some _ => None
       end).
Proof.
  split; [|split; [|split]].
  - intros env s H. apply handleSendMessage_ignored.
    now apply ignoresSubmit_true_iff.
  - intros env s Hb Hl Hc.
    assert (Hg : ignoresSubmit s = false)
      by (now apply ignoresSubmit_false_iff).
    split; [|split; [reflexivity|split; [reflexivity|]]].
    + destruct (handleSendMessage_shape env s Hg) as (ms & mid & Hrun & _).
      rewrite Hrun. unfold traceOf. cbn [snd app messagesHistory].
      eexists. reflexivity.
    + destruct (handleSendMessage_accepted_final env s Hg)
        as (kept & tail & H1 & H2 & H3 & H4 & _).
      now exists kept, tail.
  - intros ai env ts Hc. unfold conversation.
    pose proof (initializeChat_final_bots ai env initialState) as Hbots.
    destruct (initializeChat_shape ai env initialState)
      as (c' & ms & mid & Hrun & _ & _ & Hsession).
    rewrite Hrun in Hbots. unfold finalState in Hbots.
    cbn [fst snd messages] in Hbots.
    rewrite (bind_normal _ _ _ _ _ _ Hrun).
    unfold finalState at 1. cbn [fst snd].
    rewrite playTurns_userTexts.
    + cbn [messages]. now rewrite (userTexts_bots ms Hbots).
    + reflexivity.
    + cbn [chat]. rewrite (Hsession Hc). discriminate.
    + cbn [messages]. now apply bots_userTagged.
  - intros ai env. destruct (create_failure env) as [e|] eqn:Hc.
    + now rewrite (initializeChat_creation_fails ai env initialState e Hc).
    + destruct (initializeChat_shape ai env initialState)
        as (c' & ms & mid & Hrun & _ & _ & Hsession).
      rewrite Hrun. now apply Hsession.
Qed.

(** C5, as the specification states it, fails: no session exists only
    when its creation failed.  After an initialization that created the
    session and failed on the bootstrap turn, a submission is accepted
    and the list grows. *)
Lemma submission_accepted_after_rejected_bootstrap :
  initFails Scenario.ai Scenario.rejectedGreetingInit
  /\ map sender
       (messages
          (finalState
             (conversation Scenario.ai Scenario.rejectedGreetingInit
                [{| typed := js "I love drawing";
                    turn_env := Scenario.drawingEnv |}] initialState)))
     = [BOT; USER; BOT]
  /\ ~ (forall ai env sendEnv input,
         initFails ai env ->
         length
           (messages
              (finalState
                 (handleSendMessage sendEnv
                    (finalState
                       (handleChange input
                          (finalState
                             (initializeChat ai env initialState)))))))
         = length
             (messages (finalState (initializeChat ai env initialState)))).
Proof.
  assert (Hfails : initFails Scenario.ai Scenario.rejectedGreetingInit).
  { right. split; [reflexivity|]. left. now exists Scenario.offline. }
  split; [exact Hfails|]. split; [vm_compute; reflexivity|].
  intros H.
  specialize (H Scenario.ai Scenario.rejectedGreetingInit
                Scenario.drawingEnv (js "I love drawing") Hfails).
  vm_compute in H. discriminate H.
Qed.

(* ================================================================= *)
(** ** The frame of a merge step *)

Lemma merge_steps_chain b ms accs : forall k p,
  nth_error accs k = Some p ->
  exists before,
    nth_error (ms :: map (fun q => mergeChunk b q ms) accs) k = Some before
    /\ mergeChunk b p ms = mergeChunk b p before.
Proof.
  intros [|k] p Hp.
  - exists ms. now split.
  - assert (Hk : k < length accs).
    { apply Nat.lt_succ_l. apply nth_error_Some. congruence. }
    destruct (nth_error accs k) as [q|] eqn:Hq.
    2:{ apply nth_error_None in Hq. lia. }
    exists (mergeChunk b q ms). split.
    + cbn [nth_error]. now rewrite nth_error_map, Hq.
    + now rewrite mergeChunk_mergeChunk.
Qed.

(** C6. While the reply of a user turn streams, the state update made
    for the [k]-th fragment maps the list published just before it to
    the next one by giving the text accumulated so far, the
    concatenation of the fragments up to that one, to exactly those
    messages whose identifier is the placeholder's, wherever they
    stand: the placeholder, at the end of the list, then holds that
    text; the list keeps its length and every message with another
    identifier is left as it was. *)
Theorem fragments_merge_by_identifier :
  forall env s c stream,
    ignoresSubmit s = false -> chat s = Some c ->
    sendMessageStream env c (userInput s) = Normal stream ->
    forall k p,
      nth_error (accumulated [] (fragmentsOf stream)) k = Some p ->
      exists before after,
        nth_error (messagesHistory (traceOf (handleSendMessage env s))) (S k)
        = Some before
        /\ nth_error (messagesHistory (traceOf (handleSendMessage env s)))
                     (S (S k))
           = Some after
        /\ p = concat (firstn (S k) (fragmentsOf stream))
        /\ mergedInto (botMessageIdOf env) p before after
        /\ lastMessage after
           = Some {| id := botMessageIdOf env; text := p; sender := BOT |}.
Proof.
  intros env s c stream Hg Hc Hs k p Hp.
  destruct (handleSendMessage_streaming env s c stream Hg Hc Hs)
    as (tr & Hrun & Hm & _).
  cbv zeta in Hrun, Hm. rewrite Hrun. unfold traceOf. cbn [snd].
  rewrite !messagesHistory_app, Hm. cbn [messagesHistory app nth_error].
  set (wp := (messages s ++ [userMessageOf env (userInput s)])
             ++ [botMessage env []]) in *.
  set (accs := accumulated [] (fragmentsOf stream)) in *.
  destruct (merge_steps_chain (botMessageIdOf env) wp accs k p Hp)
    as (before & Hbefore & Hstep).
  assert (Hk : k < length accs) by (apply nth_error_Some; congruence).
  exists before, (mergeChunk (botMessageIdOf env) p before).
  split; [|split; [|split; [|split]]].
  - rewrite app_comm_cons, nth_error_app1; [exact Hbefore|].
    cbn [length]. rewrite length_map. lia.
  - rewrite nth_error_app1 by (now rewrite length_map).
    now rewrite nth_error_map, Hp, <- Hstep.
  - subst accs. rewrite accumulated_length in Hk.
    rewrite (accumulated_nth [] _ k Hk) in Hp. now injection Hp as <-.
  - apply mergeChunk_mergedInto.
  - rewrite <- Hstep. subst wp.
    rewrite mergeChunk_placeholder. apply lastMessage_snoc.
Qed.

(* ================================================================= *)
(** ** A failed turn *)

(** C10. The placeholder BOT message is created only once the stream
    is initiated.  When the send fails at initiation the turn publishes
    two lists only, the one with the USER message and the one with the
    error message after it, and leaves the earlier messages followed by
    exactly those two.  When the stream fails after it was initiated,
    the list ends with the USER message, the placeholder holding the
    fragments received so far, and the error message right after it.
    In every accepted turn the handler is first suspended, on the
    initiation of the send, with a list that ends with the USER
    message. *)
Theorem placeholder_only_after_initiation :
  (forall env s c e,
     ignoresSubmit s = false -> chat s = Some c ->
     sendMessageStream env c (userInput s) = Throw e ->
     messages (finalState (handleSendMessage env s))
     = messages s ++ [userMessageOf env (userInput s); errorMessageOf env]
     /\ messagesHistory (traceOf (handleSendMessage env s))
        = [messages s ++ [userMessageOf env (userInput s)];
           messages s ++ [userMessageOf env (userInput s);
                          errorMessageOf env]])
  /\
  (forall env s c stream e,
     ignoresSubmit s = false -> chat s = Some c ->
     sendMessageStream env c (userInput s) = Normal stream ->
     failureOf stream = Some e ->
     exists kept,
       messages (finalState (handleSendMessage env s))
       = kept ++ [userMessageOf env (userInput s);
                  botMessage env (concat (fragmentsOf stream));
                  errorMessageOf env]
       /\ length kept = length (messages s)
       /\ (Forall (fun m => id m <> botMessageIdOf env) (messages s) ->
           kept = messages s))
  /\
  (forall env s,
     ignoresSubmit s = false ->
     exists atInitiation later,
       awaitStates (traceOf (handleSendMessage env s))
       = atInitiation :: later
       /\ messages atInitiation
          = messages s ++ [userMessageOf env (userInput s)]).
Proof.
  split; [|split].
  - intros env s c e Hg Hc Hs.
    rewrite (handleSendMessage_send_rejected env s c e Hg Hc Hs).
    unfold traceOf, finalState. cbn [fst snd messages messagesHistory].
    now rewrite <- app_assoc.
  - intros env s c stream e Hg Hc Hs Hf.
    destruct (handleSendMessage_streaming env s c stream Hg Hc Hs)
      as (tr & Hrun & _).
    rewrite Hrun, Hf. unfold finalState. cbn [fst snd messages].
    destruct (fragmentsOf stream) as [|f fs].
    + exists (messages s). rewrite <- !app_assoc. now repeat split.
    + exists (mergeChunk (botMessageIdOf env) (concat (f :: fs)) (messages s)).
      rewrite mergeChunk_placeholder, mergeChunk_app.
      change (mergeChunk (botMessageIdOf env) (concat (f :: fs))
                [userMessageOf env (userInput s)])
        with [userMessageOf env (userInput s)].
      rewrite <- !app_assoc. split; [reflexivity|].
      split; [apply mergeChunk_length | apply mergeChunk_unrelated].
  - intros env s Hg. destruct (accepted_has_session s Hg) as (c & Hc).
    destruct (sendMessageStream env c (userInput s)) as [stream|e] eqn:Hs.
    + destruct (handleSendMessage_streaming env s c stream Hg Hc Hs)
        as (tr & Hrun & _).
      rewrite Hrun. unfold traceOf. cbn [snd app awaitStates].
      do 2 eexists. split; reflexivity.
    + rewrite (handleSendMessage_send_rejected env s c e Hg Hc Hs).
      unfold traceOf. cbn [snd awaitStates].
      do 2 eexists. split; reflexivity.
Qed.

(* ================================================================= *)
(** ** Formatting *)

Import Markup.
Import Segments.

Lemma lazyGroup_decomposes s g rest :
  lazyGroup s = Some (g, rest) ->
  s = g ++ [asterisk; asterisk] ++ rest.
Proof.
  revert g rest. induction s as [|c r IH]; intros g rest; [discriminate|].
  cbn [lazyGroup]. destruct r as [|d r']; [discriminate|].
  destruct (N.eqb c asterisk && N.eqb d asterisk) eqn:E.
  - intros [= <- <-]. apply andb_true_iff in E as [E1 E2].
    apply N.eqb_eq in E1, E2. now subst.
  - destruct (isLineTerminator c); [discriminate|].
    destruct (lazyGroup (d :: r')) as [[g' rest']|]; [|discriminate].
    intros [= <- <-]. cbn [app]. f_equal. now apply IH.
Qed.

Lemma matchBoldAt_decomposes s g rest :
  matchBoldAt s = Some (g, rest) ->
  s = [asterisk; asterisk] ++ g ++ [asterisk; asterisk] ++ rest.
Proof.
  destruct s as [|c [|d r]]; try discriminate. cbn [matchBoldAt].
  destruct (N.eqb c asterisk && N.eqb d asterisk) eqn:E; [|discriminate].
  apply andb_true_iff in E as [E1 E2]. apply N.eqb_eq in E1, E2. subst.
  intros H. apply lazyGroup_decomposes in H. now subst.
Qed.

Lemma replaceBoldFrom_skips a rest :
  replaceBoldFrom (length a) (a ++ rest) = replaceBoldFrom 0 rest.
Proof. induction a as [|c a IH]; [reflexivity | exact IH]. Qed.

(** The global replace, one match at a time. *)
Lemma replaceBold_unfold s :
  replaceBold s
  = match matchBoldAt s with
    | Some (g, rest) => strong g ++ replaceBold rest
    | None => match s with
              | [] => []
              | c :: r => c :: replaceBold r
              end
    end.
Proof.
  unfold replaceBold. destruct s as [|c r]; [reflexivity|].
  cbn [replaceBoldFrom].
  destruct (matchBoldAt (c :: r)) as [[g rest]|] eqn:E; [|reflexivity].
  f_equal. apply matchBoldAt_decomposes in E. injection E as -> ->.
  replace (length g + 3)
    with (length (asterisk :: g ++ [asterisk; asterisk])).
  - rewrite <- (replaceBoldFrom_skips (asterisk :: g ++ [asterisk; asterisk])).
    f_equal. cbn [app]. now rewrite <- app_assoc.
  - cbn [length]. rewrite length_app. cbn [length]. lia.
Qed.

Lemma replaceBold_plain s :
  Forall (fun c => c <> asterisk) s -> replaceBold s = s.
Proof.
  unfold replaceBold. induction 1 as [|c r Hc _ IH]; [reflexivity|].
  cbn [replaceBoldFrom].
  assert (E : matchBoldAt (c :: r) = None).
  { cbn [matchBoldAt]. destruct r; [reflexivity|].
    apply N.eqb_neq in Hc. now rewrite Hc. }
  now rewrite E, IH.
Qed.

Lemma replaceNewlines_plain s :
  Forall (fun c => c <> lineFeed) s -> replaceNewlines s = s.
Proof.
  induction 1 as [|c r Hc _ IH]; [reflexivity|].
  cbn [replaceNewlines]. apply N.eqb_neq in Hc. now rewrite Hc, IH.
Qed.






Lemma replaceNewlines_app a b :
  replaceNewlines (a ++ b) = replaceNewlines a ++ replaceNewlines b.
Proof.
  induction a as [|c a IH]; [reflexivity|].
  cbn [app replaceNewlines]. rewrite IH.
  destruct (N.eqb c lineFeed); [now rewrite <- app_assoc | reflexivity].
Qed.









(** The segments of a text with markup, a bold pair and a line feed. *)
Example segments_of_a_marked_up_text :
  segments (js "<i>**x**
y")
  = [Copied 60%N; Copied 105%N; Copied 62%N; Emphasized (js "x");
     LineBreak; Copied 121%N].
Proof. reflexivity. Qed.

(** The formatting example of the specification. *)
Example formatText_bold_and_break :
  formatText (js "**Data Scientist**
Great fit")
  = js "<strong class=" ++ [doubleQuote] ++ js "font-semibold"
    ++ [doubleQuote] ++ js ">Data Scientist</strong><br />Great fit".
Proof. reflexivity. Qed.

(* ================================================================= *)
(** ** The input control *)

(** C7, as the code has it.  The input control is disabled exactly
    when the pending flag is up.  After [initializeChat], also when it
    failed, the flag is down and the control is enabled; what a missing
    session blocks is the submission, which [handleSendMessage]
    ignores. *)
Theorem input_disabled_is_pending :
  (forall s, inputDisabled (App.render s) = isLoading s)
  /\ (forall ai env s,
        inputDisabled (App.render (finalState (initializeChat ai env s)))
        = false)
  /\ (forall ai env sendEnv e s,
        create_failure env = Some e -> chat s = None ->
        handleSendMessage sendEnv (finalState (initializeChat ai env s))
        = (Normal tt, finalState (initializeChat ai env s), [])).
Proof.
  split; [reflexivity|]. split.
  - intros ai env s.
    destruct (initializeChat_shape ai env s) as (c' & ms & mid & Hrun & _).
    now rewrite Hrun.
  - intros ai env sendEnv e s Hc Hs.
    apply handleSendMessage_ignored, ignoresSubmit_true_iff.
    right; right.
    rewrite (initializeChat_creation_fails ai env s e Hc). exact Hs.
Qed.

(** C7, as the specification states it, fails: after an initialization
    that failed the control is enabled. *)
Lemma input_enabled_after_failed_initialization :
  ~ (forall ai env,
       inputDisabled
         (App.render (finalState (initializeChat ai env initialState)))
       = true
       <-> isLoading (finalState (initializeChat ai env initialState)) = true
           \/ initFails ai env).
Proof.
  intros H.
  destruct (H Scenario.ai Scenario.brokenInit) as [_ Himp].
  assert (Hfails : initFails Scenario.ai Scenario.brokenInit)
    by (left; now exists Scenario.offline).
  specialize (Himp (or_intror Hfails)). discriminate Himp.
Qed.

(* ================================================================= *)
(** ** The credential *)

(** C8. Without the credential the gateway module throws while it is
    loaded: the program ends with that error before the application is
    mounted, so before [createChatSession] can run.  The same holds for
    an empty credential, and a client, which every session is created
    from, exists only holding the non-empty credential supplied. *)
Theorem missing_credential_is_fatal :
  (forall rootElement env,
     Index.main None rootElement env
     = Throw {| message := js "API_KEY environment variable not set" |})
  /\ (forall key,
        GeminiService.load (Some key)
        = if truthy key then Normal {| apiKey := key |}
          else Throw {| message := js "API_KEY environment variable not set" |})
  /\ (forall API_KEY client,
        GeminiService.load API_KEY = Normal client ->
        API_KEY = Some (apiKey client) /\ truthy (apiKey client) = true)
  /\ (forall API_KEY rootElement env s tr,
        Index.main API_KEY rootElement env = Normal (s, tr) ->
        exists key, API_KEY = Some key /\ truthy key = true).
Proof.
  split; [reflexivity|]. split; [reflexivity|].
  assert (Hload : forall API_KEY client,
             GeminiService.load API_KEY = Normal client ->
             API_KEY = Some (apiKey client) /\ truthy (apiKey client) = true).
  { intros [key|] client; [|discriminate]. cbn [GeminiService.load].
    destruct (truthy key) eqn:E; [|discriminate].
    intros [= <-]. now split. }
  split; [exact Hload|].
  intros API_KEY rootElement env s tr. unfold Index.main.
  destruct (GeminiService.load API_KEY) as [client|e] eqn:E; [|discriminate].
  intros _. destruct (Hload _ _ E) as [-> Ht]. now eexists.
Qed.

(* ================================================================= *)
(** ** Identifiers *)

(** C9 does not hold of the code: identifiers are a kind prefix
    followed by the clock reading, so two turns during which the clock
    reads the same millisecond create messages with the same
    identifiers, and the merge step of the second turn then rewrites
    the reply of the first. *)
Lemma identifiers_repeat_on_equal_clock_readings :
  let final :=
    finalState (conversation Scenario.ai Scenario.welcomeInit
                  [Scenario.firstTurn; Scenario.secondTurn] initialState) in
  map id (messages final)
  = [js "bot-init-1000"; js "user-2000"; js "bot-2000";
     js "user-2000"; js "bot-2000"]
  /\ map text (messages final)
     = [js "Welcome!"; js "I love drawing"; js "Data.";
        js "And maths"; js "Data."]
  /\ ~ NoDup (map id (messages final)).
Proof.
  cbv zeta.
  assert (Hids : map id (messages (finalState
                   (conversation Scenario.ai Scenario.welcomeInit
                      [Scenario.firstTurn; Scenario.secondTurn]
                      initialState)))
                 = [js "bot-init-1000"; js "user-2000"; js "bot-2000";
                    js "user-2000"; js "bot-2000"])
    by (vm_compute; reflexivity).
  split; [exact Hids|]. split; [vm_compute; reflexivity|].
  rewrite Hids. intros Hnd.
  inversion Hnd as [|a l _ Hnd1]; subst.
  inversion Hnd1 as [|b l' Hin _]; subst.
  apply Hin. right. now left.
Qed.

(* ================================================================= *)
(** ** Identifiers while the clock readings differ *)

Lemma js_injective a b : js a = js b -> a = b.
Proof.
  unfold js. intros H.
  rewrite <- (string_of_list_ascii_of_string a),
          <- (string_of_list_ascii_of_string b).
  f_equal. revert H.
  generalize (list_ascii_of_string a) (list_ascii_of_string b).
  induction l as [|x l IH]; intros [|y l']; try discriminate; [reflexivity|].
  cbn [map]. intros [= Hxy Hl]. f_equal; [|now apply IH].
  rewrite <- (ascii_N_embedding x), <- (ascii_N_embedding y). now f_equal.
Qed.

Lemma to_int_proper z : Z.to_int z <> Decimal.Pos Decimal.Nil
                        /\ Z.to_int z <> Decimal.Neg Decimal.Nil.
Proof.
  destruct z as [|p|p]; cbn; split; try discriminate;
    intros [= H]; now apply DecimalPos.Unsigned.to_uint_nonnil in H.
Qed.

(** Distinct time values print differently. *)
Lemma NumberToString_injective a b :
  NumberToString a = NumberToString b -> a = b.
Proof.
  unfold NumberToString. intros H. apply js_injective in H.
  apply DecimalZ.to_int_inj.
  destruct (to_int_proper a) as [Ha1 Ha2], (to_int_proper b) as [Hb1 Hb2].
  pose proof (NilZero.isi (Z.to_int a) Ha1 Ha2) as Ea.
  pose proof (NilZero.isi (Z.to_int b) Hb1 Hb2) as Eb.
  rewrite H in Ea. congruence.
Qed.

(** A printed time value starts with a digit or a minus sign. *)
Lemma NumberToString_head z :
  exists c r, NumberToString z = c :: r /\ (c < 58)%N.
Proof.
  unfold NumberToString.
  destruct z as [|p|p]; cbn [Z.to_int NilZero.string_of_int].
  - do 2 eexists. split; [reflexivity | reflexivity].
  - pose proof (DecimalPos.Unsigned.to_uint_nonnil p) as Hp.
    destruct (Pos.to_uint p); [congruence|..];
      do 2 eexists; (split; [reflexivity | reflexivity]).
  - do 2 eexists. split; [reflexivity | reflexivity].
Qed.

Lemma turnIds_NoDup env : NoDup (turnIds env).
Proof.
  unfold turnIds, botMessageIdOf.
  repeat constructor; cbn [In]; intros H;
    repeat (destruct H as [H|H]; [discriminate H|]); exact H.
Qed.

(** Two turns during which the clock reads different values at each of
    its three places cannot create the same identifier. *)
Lemma turnIds_disjoint env env' :
  now_user env <> now_user env' ->
  now_bot env <> now_bot env' ->
  now_error env <> now_error env' ->
  forall x, In x (turnIds env) -> ~ In x (turnIds env').
Proof.
  intros Hu Hb He x Hx Hx'. unfold turnIds, botMessageIdOf in *.
  cbn [In] in Hx, Hx'.
  destruct Hx as [<-|[<-|[<-|[]]]]; destruct Hx' as [H|[H|[H|[]]]];
    try discriminate H;
    apply app_inv_head, NumberToString_injective in H; congruence.
Qed.

Lemma turnIds_not_initial env x :
  In x (turnIds env) ->
  forall t0, x <> js "bot-init-" ++ NumberToString t0 /\ x <> js "error-init".
Proof.
  intros Hx t0. unfold turnIds, botMessageIdOf in Hx. cbn [In] in Hx.
  destruct (NumberToString_head (now_bot env)) as (cb & rb & Eb & Hb).
  destruct (NumberToString_head (now_error env)) as (ce & re & Ee & He).
  destruct Hx as [<-|[<-|[<-|[]]]]; split; try discriminate.
  - rewrite Eb. intros [= -> _]. discriminate Hb.
  - rewrite Ee. intros [= -> _]. discriminate He.
Qed.

(** The identifiers after an accepted turn: those from before it, then
    the ones the turn created. *)
Lemma handleSendMessage_ids env s :
  ignoresSubmit s = false ->
  exists extra,
    idsOf (messages (finalState (handleSendMessage env s)))
    = idsOf (messages s) ++ extra
    /\ NoDup extra /\ incl extra (turnIds env).
Proof.
  intros Hg. destruct (accepted_has_session s Hg) as (c & Hc).
  pose proof (turnIds_NoDup env) as Hnd.
  unfold turnIds in *.
  assert (Hub : NoDup [js "user-" ++ NumberToString (now_user env);
                       botMessageIdOf env]).
  { unfold botMessageIdOf.
    repeat constructor; cbn [In]; intros H;
      repeat (destruct H as [H|H]; [discriminate H|]); exact H. }
  assert (Hue : NoDup [js "user-" ++ NumberToString (now_user env);
                       js "error-" ++ NumberToString (now_error env)]).
  { repeat constructor; cbn [In]; intros H;
      repeat (destruct H as [H|H]; [discriminate H|]); exact H. }
  destruct (sendMessageStream env c (userInput s)) as [stream|e] eqn:Hs.
  - destruct (handleSendMessage_streaming env s c stream Hg Hc Hs)
      as (tr & Hrun & _).
    rewrite Hrun. unfold finalState, idsOf. cbn [fst snd messages].
    assert (Hids : map id
                     (match fragmentsOf stream with
                      | [] => (messages s ++ [userMessageOf env (userInput s)])
                              ++ [botMessage env []]
                      | _ :: _ =>
                          mergeChunk (botMessageIdOf env)
                            (concat (fragmentsOf stream))
                            ((messages s ++ [userMessageOf env (userInput s)])
                             ++ [botMessage env []])
                      end)
                   = map id (messages s)
                     ++ [js "user-" ++ NumberToString (now_user env);
                         botMessageIdOf env]).
    { destruct (fragmentsOf stream); rewrite ?mergeChunk_ids;
        rewrite <- app_assoc, map_app; reflexivity. }
    destruct (failureOf stream).
    + rewrite map_app, Hids, <- app_assoc. eexists. split; [reflexivity|].
      split; [exact Hnd | apply incl_refl].
    + rewrite Hids. eexists. split; [reflexivity|].
      split; [exact Hub|].
      intros x [<-|[<-|[]]]; cbn [In]; auto.
  - rewrite (handleSendMessage_send_rejected env s c e Hg Hc Hs).
    unfold finalState, idsOf. cbn [fst snd messages].
    rewrite <- app_assoc, map_app. eexists. split; [reflexivity|].
    split; [exact Hue|].
    intros x [<-|[<-|[]]]; cbn [In]; auto.
Qed.

Lemma playTurn_ids t s :
  exists extra,
    idsOf (messages (finalState (playTurn t s)))
    = idsOf (messages s) ++ extra
    /\ NoDup extra /\ incl extra (turnIds (turn_env t)).
Proof.
  rewrite playTurn_run. cbv zeta.
  set (s1 := {| chat := chat s; messages := messages s;
                userInput := typed t; isLoading := isLoading s |}).
  unfold finalState at 1. cbn [fst snd].
  destruct (ignoresSubmit s1) eqn:Hg.
  - rewrite (handleSendMessage_ignored _ _ Hg). exists [].
    unfold finalState. cbn [fst snd]. subst s1. cbn [messages].
    rewrite app_nil_r. split; [reflexivity|].
    split; [constructor | intros x []].
  - exact (handleSendMessage_ids (turn_env t) s1 Hg).
Qed.

Lemma playTurns_ids_NoDup ts : forall s,
  NoDup (map (fun t => now_user (turn_env t)) ts) ->
  NoDup (map (fun t => now_bot (turn_env t)) ts) ->
  NoDup (map (fun t => now_error (turn_env t)) ts) ->
  NoDup (idsOf (messages s)) ->
  (forall t x, In t ts -> In x (turnIds (turn_env t)) ->
               ~ In x (idsOf (messages s))) ->
  NoDup (idsOf (messages (finalState (playTurns ts s)))).
Proof.
  induction ts as [|t ts IH]; intros s Hu Hb He Hnd Hfresh.
  - exact Hnd.
  - cbn [playTurns map] in *.
    destruct (playTurn_ids t s) as (extra & Hids & Hextra & Hincl).
    destruct (playTurn t s) as [[r s1] t1] eqn:Hp.
    assert (Hr : r = Normal tt).
    { pose proof (playTurn_run t s) as Hrun. rewrite Hp in Hrun.
      cbv zeta in Hrun. injection Hrun as -> _ _.
      match goal with
      | |- fst (fst (handleSendMessage ?e ?st)) = _ =>
          destruct (ignoresSubmit st) eqn:Hg;
          [now rewrite (handleSendMessage_ignored e st Hg)
          |destruct (handleSendMessage_shape e st Hg)
             as (ms & mid & Hrun' & _); now rewrite Hrun']
      end. }
    subst r. rewrite (bind_normal _ _ _ _ _ _ Hp).
    unfold finalState at 1. cbn [fst snd].
    unfold finalState in Hids. cbn [fst snd] in Hids.
    apply NoDup_cons_iff in Hu as [Hu1 Hu2].
    apply NoDup_cons_iff in Hb as [Hb1 Hb2].
    apply NoDup_cons_iff in He as [He1 He2].
    apply IH; try assumption.
    + rewrite Hids. apply NoDup_app; [exact Hnd | exact Hextra |].
      intros x Hx Hx'. apply (Hfresh t x); [now left | now apply Hincl | exact Hx].
    + intros t' x Ht' Hx. rewrite Hids. intros Hin.
      apply in_app_or in Hin as [Hin|Hin].
      * apply (Hfresh t' x); [now right | exact Hx | exact Hin].
      * apply Hincl in Hin.
        apply (turnIds_disjoint (turn_env t) (turn_env t')) in Hin;
          [contradiction | | |].
        -- intros E. apply Hu1. rewrite E.
           now apply (in_map (fun t => now_user (turn_env t))).
        -- intros E. apply Hb1. rewrite E.
           now apply (in_map (fun t => now_bot (turn_env t))).
        -- intros E. apply He1. rewrite E.
           now apply (in_map (fun t => now_error (turn_env t))).
Qed.

Lemma initializeChat_final_ids ai env s :
  idsOf (messages (finalState (initializeChat ai env s)))
  = [js "bot-init-" ++ NumberToString (init_now env)]
  \/ idsOf (messages (finalState (initializeChat ai env s)))
     = [js "error-init"].
Proof.
  destruct (create_failure env) as [e|] eqn:Hc.
  - rewrite (initializeChat_creation_fails ai env s e Hc). now right.
  - destruct (init_sendMessageStream env (sessionOf ai) (js "Hello!"))
      as [stream|e] eqn:Hs.
    + destruct (initializeChat_streaming ai env s stream Hc Hs)
        as (tr & Hrun & _).
      rewrite Hrun. destruct (failureOf stream); [now right | now left].
    + rewrite (initializeChat_send_rejected ai env s e Hc Hs). now right.
Qed.

(** X16. What C9 asks for does hold of a conversation during whose
    turns the clock never reads the same value twice at the same place:
    then the identifiers in the list are pairwise distinct. *)
Lemma identifiers_distinct_while_clock_readings_differ ai env ts :
  NoDup (map (fun t => now_user (turn_env t)) ts) ->
  NoDup (map (fun t => now_bot (turn_env t)) ts) ->
  NoDup (map (fun t => now_error (turn_env t)) ts) ->
  NoDup (idsOf (messages (finalState (conversation ai env ts initialState)))).
Proof.
  intros Hu Hb He. unfold conversation.
  pose proof (initializeChat_final_ids ai env initialState) as Hids.
  destruct (initializeChat_shape ai env initialState)
    as (c' & ms & mid & Hrun & _).
  rewrite Hrun in Hids. unfold finalState in Hids.
  cbn [fst snd messages] in Hids.
  rewrite (bind_normal _ _ _ _ _ _ Hrun).
  unfold finalState at 1. cbn [fst snd].
  apply playTurns_ids_NoDup; try assumption; cbn [messages].
  - destruct Hids as [-> | ->]; repeat constructor; intros [].
  - intros t x _ Hx.
    destruct (turnIds_not_initial (turn_env t) x Hx (init_now env))
      as [H1 H2].
    destruct Hids as [-> | ->]; intros [H|[]]; congruence.
Qed.

(* ================================================================= *)
(** ** A session that outlives a failed bootstrap turn *)

(** X17. The session is stored before the bootstrap turn is sent: when
    only that turn fails, the error message is shown, the session
    exists, and a non-blank submission is accepted. *)
Lemma session_exists_after_failed_bootstrap ai env e input :
  create_failure env = None ->
  init_sendMessageStream env (sessionOf ai) (js "Hello!") = Throw e ->
  blank input = false ->
  let s := finalState (initializeChat ai env initialState) in
  messages s = [errorInitMessage]
  /\ chat s = Some (sessionOf ai)
  /\ ignoresSubmit (finalState (handleChange input s)) = false.
Proof.
  intros Hc Hs Hb. cbv zeta.
  rewrite (initializeChat_send_rejected ai env initialState e Hc Hs).
  split; [reflexivity|]. split; [reflexivity|].
  apply ignoresSubmit_false_iff. cbn. now split.
Qed.

(* ================================================================= *)
(** ** The properties at the scenarios of the specification *)

(** Streaming, at the example fragments and at the drawing turn. *)
Lemma streamed_text_follows_prefixes_witness :
  messagesHistory
    (traceOf (initializeChat Scenario.ai Scenario.helloInit initialState))
  = map (fun p => [initialBotMessage Scenario.helloInit p])
        [[]; js "Hello"; js "Hello there"; js "Hello there!"]
  /\ lastMessage
       (messages
          (finalState
             (handleSendMessage Scenario.drawingEnv
                (Scenario.welcomed (js "I love drawing")))))
     = Some (botMessage Scenario.drawingEnv
               (js "You could be a **Graphic Designer**.")).
Proof.
  split.
  - exact (proj1 (proj1 streamed_text_follows_prefixes
                    Scenario.ai Scenario.helloInit initialState
                    (streamOf [js "Hello"; js " there"; js "!"] None)
                    eq_refl eq_refl eq_refl)).
  - destruct (proj2 streamed_text_follows_prefixes
                Scenario.drawingEnv (Scenario.welcomed (js "I love drawing"))
                (sessionOf Scenario.ai)
                (streamOf [js "You could be a "; js "**Graphic Designer**";
                           js "."] None)
                eq_refl eq_refl eq_refl eq_refl)
      as (history & _ & _ & Hlast).
    exact Hlast.
Defined.

(** Recovery, after a failed session creation and after a reply that
    broke off. *)
Lemma error_recovery_is_asymmetric_witness :
  messages
    (finalState (initializeChat Scenario.ai Scenario.brokenInit initialState))
  = [errorInitMessage]
  /\ nth_error
       (messages
          (finalState
             (handleSendMessage Scenario.brokenStreamEnv
                (Scenario.welcomed (js "I love drawing")))))
       0
     = Some (initialBotMessage Scenario.welcomeInit (js "Welcome!")).
Proof.
  split.
  - apply (proj1 error_recovery_is_asymmetric
             Scenario.ai Scenario.brokenInit initialState).
    left. exists Scenario.offline. reflexivity.
  - destruct (proj2 error_recovery_is_asymmetric
                Scenario.brokenStreamEnv
                (Scenario.welcomed (js "I love drawing"))
                (sessionOf Scenario.ai) eq_refl eq_refl)
      as (earlier & before & _ & _ & _ & Hkept).
    + right. exists (streamOf [js "You could"; js " be"] (Some Scenario.offline)),
        Scenario.offline. split; reflexivity.
    + apply Hkept; [reflexivity | discriminate].
Defined.

(** The flag, after a reply that broke off and after a blank
    submission. *)
Lemma pending_brackets_every_operation_witness :
  isLoading
    (finalState
       (handleSendMessage Scenario.brokenStreamEnv
          (Scenario.welcomed (js "I love drawing"))))
  = false
  /\ handleSendMessage Scenario.drawingEnv (Scenario.welcomed (js "  "))
     = (Normal tt, Scenario.welcomed (js "  "), []).
Proof.
  split.
  - apply (proj1 (proj2 pending_brackets_every_operation)
             Scenario.brokenStreamEnv
             (Scenario.welcomed (js "I love drawing")) eq_refl).
  - apply (proj1 (proj2 (proj2 pending_brackets_every_operation))
             Scenario.drawingEnv (Scenario.welcomed (js "  ")) eq_refl).
Defined.

(** Submission: a blank text, the drawing turn, and two turns in a
    row. *)
Lemma submit_appends_the_user_message_witness :
  handleSendMessage Scenario.drawingEnv (Scenario.welcomed (js "  "))
  = (Normal tt, Scenario.welcomed (js "  "), [])
  /\ (exists later,
        messagesHistory
          (traceOf (handleSendMessage Scenario.drawingEnv
                      (Scenario.welcomed (js "I love drawing"))))
        = [initialBotMessage Scenario.welcomeInit (js "Welcome!");
           {| id := js "user-2000"; sender := USER;
              text := js "I love drawing" |}]
          :: later)
  /\ userTexts
       (messages
          (finalState
             (conversation Scenario.ai Scenario.welcomeInit
                [Scenario.firstTurn; Scenario.secondTurn] initialState)))
     = [js "I love drawing"; js "And maths"].
Proof.
  split; [|split].
  - apply (proj1 submit_appends_the_user_message
             Scenario.drawingEnv (Scenario.welcomed (js "  "))).
    left. reflexivity.
  - apply (proj1 (proj2 submit_appends_the_user_message)
             Scenario.drawingEnv (Scenario.welcomed (js "I love drawing"))
             eq_refl eq_refl).
    discriminate.
  - exact (proj1 (proj2 (proj2 submit_appends_the_user_message))
             Scenario.ai Scenario.welcomeInit
             [Scenario.firstTurn; Scenario.secondTurn] eq_refl).
Defined.

(** The merge step for the second fragment of the drawing turn. *)
Lemma fragments_merge_by_identifier_witness :
  exists before after,
    nth_error
      (messagesHistory
         (traceOf (handleSendMessage Scenario.drawingEnv
                     (Scenario.welcomed (js "I love drawing")))))
      2
    = Some before
    /\ nth_error
         (messagesHistory
            (traceOf (handleSendMessage Scenario.drawingEnv
                        (Scenario.welcomed (js "I love drawing")))))
         3
       = Some after
    /\ js "You could be a **Graphic Designer**"
       = concat [js "You could be a "; js "**Graphic Designer**"]
    /\ mergedInto (js "bot-2750")
         (js "You could be a **Graphic Designer**") before after
    /\ lastMessage after
       = Some {| id := js "bot-2750";
                 text := js "You could be a **Graphic Designer**";
                 sender := BOT |}.
Proof.
  exact (fragments_merge_by_identifier
           Scenario.drawingEnv (Scenario.welcomed (js "I love drawing"))
           (sessionOf Scenario.ai)
           (streamOf [js "You could be a "; js "**Graphic Designer**";
                      js "."] None)
           eq_refl eq_refl eq_refl
           1 (js "You could be a **Graphic Designer**") eq_refl).
Defined.

(** A rejected send and a reply that broke off after two fragments. *)
Lemma placeholder_only_after_initiation_witness :
  messages
    (finalState
       (handleSendMessage Scenario.rejectedEnv
          (Scenario.welcomed (js "I love drawing"))))
  = [initialBotMessage Scenario.welcomeInit (js "Welcome!");
     {| id := js "user-2000"; sender := USER; text := js "I love drawing" |};
     errorMessageOf Scenario.rejectedEnv]
  /\ exists kept,
       messages
         (finalState
            (handleSendMessage Scenario.brokenStreamEnv
               (Scenario.welcomed (js "I love drawing"))))
       = kept
         ++ [{| id := js "user-2000"; sender := USER;
                text := js "I love drawing" |};
             {| id := js "bot-2750"; sender := BOT;
                text := js "You could be" |};
             errorMessageOf Scenario.brokenStreamEnv]
       /\ length kept = 1.
Proof.
  split.
  - exact (proj1 (proj1 placeholder_only_after_initiation
                    Scenario.rejectedEnv
                    (Scenario.welcomed (js "I love drawing"))
                    (sessionOf Scenario.ai) Scenario.offline
                    eq_refl eq_refl eq_refl)).
  - destruct (proj1 (proj2 placeholder_only_after_initiation)
                Scenario.brokenStreamEnv
                (Scenario.welcomed (js "I love drawing"))
                (sessionOf Scenario.ai)
                (streamOf [js "You could"; js " be"] (Some Scenario.offline))
                Scenario.offline
                eq_refl eq_refl eq_refl eq_refl)
      as (kept & Hfinal & Hlen & _).
    exists kept. split; [exact Hfinal | exact Hlen].
Defined.


(** A submission after a failed session creation. *)
Lemma input_disabled_is_pending_witness :
  handleSendMessage Scenario.drawingEnv
    (finalState (initializeChat Scenario.ai Scenario.brokenInit initialState))
  = (Normal tt,
     finalState (initializeChat Scenario.ai Scenario.brokenInit initialState),
     []).
Proof.
  exact (proj2 (proj2 input_disabled_is_pending)
           Scenario.ai Scenario.brokenInit Scenario.drawingEnv
           Scenario.offline initialState eq_refl eq_refl).
Defined.

(** The client of the scenarios holds the credential it was loaded
    with. *)
Lemma missing_credential_is_fatal_witness :
  Some (js "secret") = Some (apiKey Scenario.ai)
  /\ truthy (apiKey Scenario.ai) = true.
Proof.
  apply (proj1 (proj2 (proj2 missing_credential_is_fatal))
           (Some (js "secret")) Scenario.ai).
  reflexivity.
Defined.

(** The end-to-end scenario of the specification. *)
Example end_to_end :
  let afterInit :=
    finalState (initializeChat Scenario.ai Scenario.welcomeInit initialState) in
  let final :=
    finalState
      (conversation Scenario.ai Scenario.welcomeInit
         [{| typed := js "I love drawing";
             turn_env := Scenario.drawingEnv |}] initialState) in
  map (fun m => (sender m, text m)) (messages afterInit)
  = [(BOT, js "Welcome!")]
  /\ isLoading afterInit = false
  /\ map (fun m => (sender m, text m)) (messages final)
     = [(BOT, js "Welcome!"); (USER, js "I love drawing");
        (BOT, js "You could be a **Graphic Designer**.")]
  /\ isLoading final = false.
Proof. vm_compute. repeat split. Qed.

(* ================================================================= *)
(** ** Further properties: formatting *)

Import Coverage.

Lemma lazyGroup_at_line_feed b : lazyGroup (lineFeed :: b) = None.
Proof. destruct b; reflexivity. Qed.

Lemma lazyGroup_line r b :
  lazyGroup (r ++ lineFeed :: b)
  = match lazyGroup r with
    | Some (g, rest) => Some (g, rest ++ lineFeed :: b)
    | None => None
    end.
Proof.
  induction r as [|c r IH]; [apply lazyGroup_at_line_feed|].
  destruct r as [|d r'].
  - change (lazyGroup ([c] ++ lineFeed :: b))
      with (if N.eqb c asterisk && N.eqb lineFeed asterisk
            then Some ([], b)
            else if isLineTerminator c then None
                 else match lazyGroup (lineFeed :: b) with
                      | Some (g, rest') => Some (c :: g, rest')
                      | None => None
                      end).
    rewrite lazyGroup_at_line_feed.
    change (N.eqb lineFeed asterisk) with false. rewrite andb_false_r.
    now destruct (isLineTerminator c).
  - change (lazyGroup ((c :: d :: r') ++ lineFeed :: b))
      with (if N.eqb c asterisk && N.eqb d asterisk
            then Some ([], r' ++ lineFeed :: b)
            else if isLineTerminator c then None
                 else match lazyGroup ((d :: r') ++ lineFeed :: b) with
                      | Some (g, rest') => Some (c :: g, rest')
                      | None => None
                      end).
    rewrite IH.
    change (lazyGroup (c :: d :: r'))
      with (if N.eqb c asterisk && N.eqb d asterisk
            then Some ([], r')
            else if isLineTerminator c then None
                 else match lazyGroup (d :: r') with
                      | Some (g, rest') => Some (c :: g, rest')
                      | None => None
                      end).
    destruct (N.eqb c asterisk && N.eqb d asterisk); [reflexivity|].
    destruct (isLineTerminator c); [reflexivity|].
    now destruct (lazyGroup (d :: r')) as [[g rest]|].
Qed.

Lemma matchBoldAt_line a b :
  matchBoldAt (a ++ lineFeed :: b)
  = match matchBoldAt a with
    | Some (g, rest) => Some (g, rest ++ lineFeed :: b)
    | None => None
    end.
Proof.
  destruct a as [|c [|d r]].
  - now destruct b.
  - cbn [app matchBoldAt].
    change (N.eqb lineFeed asterisk) with false. now rewrite andb_false_r.
  - cbn [app matchBoldAt].
    destruct (N.eqb c asterisk && N.eqb d asterisk); [|reflexivity].
    apply lazyGroup_line.
Qed.

(** A match never reaches across a line feed. *)
Lemma replaceBold_line b : forall n a,
  length a <= n ->
  replaceBold (a ++ lineFeed :: b)
  = replaceBold a ++ lineFeed :: replaceBold b.
Proof.
  induction n as [|n IH]; intros a Hn.
  - destruct a; [|cbn [length] in Hn; lia].
    cbn [app]. rewrite (replaceBold_unfold (lineFeed :: b)).
    assert (E : matchBoldAt (lineFeed :: b) = None)
      by exact (matchBoldAt_line [] b).
    now rewrite E.
  - rewrite (replaceBold_unfold (a ++ lineFeed :: b)), matchBoldAt_line.
    rewrite (replaceBold_unfold a).
    destruct (matchBoldAt a) as [[g rest]|] eqn:E.
    + apply matchBoldAt_decomposes in E. subst a.
      rewrite !length_app in Hn. cbn [length] in Hn.
      rewrite IH by lia. now rewrite app_assoc.
    + destruct a as [|c r]; [reflexivity|].
      cbn [length] in Hn. cbn [app]. now rewrite IH by lia.
Qed.

(** X1. Formatting works line by line: the result for two texts joined
    by a line feed is the results for the two texts joined by the
    line-break tag; no bold pair spans a line feed. *)
Theorem formatText_line_by_line :
  forall a b,
    formatText (a ++ lineFeed :: b)
    = formatText a ++ js "<br />" ++ formatText b.
Proof.
  intros a b. unfold formatText.
  rewrite (replaceBold_line b (length a) a (le_n _)).
  rewrite replaceNewlines_app. reflexivity.
Qed.

(** X2. The formatted text holds no line feed: each one was replaced by
    the line-break tag. *)
Theorem formatText_has_no_line_feed :
  forall text, Forall (fun c => c <> lineFeed) (formatText text).
Proof.
  intros text. unfold formatText.
  induction (replaceBold text) as [|c r IH]; [constructor|].
  cbn [replaceNewlines]. destruct (N.eqb_spec c lineFeed) as [_|Hc].
  - apply Forall_app. split; [|exact IH].
    repeat constructor; discriminate.
  - now constructor.
Qed.

Lemma plainGroup_Forall g :
  plainGroup g = true ->
  Forall (fun c => N.eqb c asterisk = false /\ isLineTerminator c = false) g.
Proof.
  unfold plainGroup. rewrite forallb_forall. intros H.
  apply Forall_forall. intros c Hc. specialize (H c Hc).
  now apply negb_true_iff, orb_false_iff in H.
Qed.

Lemma lazyGroup_closes g rest :
  plainGroup g = true ->
  lazyGroup (g ++ [asterisk; asterisk] ++ rest) = Some (g, rest).
Proof.
  intros H. apply plainGroup_Forall in H.
  induction H as [|c g [Hc Hl] _ IH]; [reflexivity|].
  change ((c :: g) ++ [asterisk; asterisk] ++ rest)
    with (c :: (g ++ [asterisk; asterisk] ++ rest)).
  remember (g ++ [asterisk; asterisk] ++ rest) as r eqn:Hr.
  destruct r as [|d r'].
  - destruct g; discriminate Hr.
  - change (lazyGroup (c :: d :: r'))
      with (if N.eqb c asterisk && N.eqb d asterisk
            then Some ([], r')
            else if isLineTerminator c then None
                 else match lazyGroup (d :: r') with
                      | Some (g', rest') => Some (c :: g', rest')
                      | None => None
                      end).
    rewrite Hc, Hl. cbn [andb].
    assert (E : lazyGroup (d :: r') = Some (g, rest))
      by (rewrite Hr; exact IH).
    now rewrite E.
Qed.

Lemma strong_has_no_line_feed g :
  plainGroup g = true -> replaceNewlines (strong g) = strong g.
Proof.
  intros H. apply replaceNewlines_plain. apply plainGroup_Forall in H.
  unfold strong. repeat (apply Forall_app; split);
    try (repeat constructor; discriminate).
  eapply Forall_impl; [|exact H]. intros c [_ Hl] ->. discriminate Hl.
Qed.

Lemma noAsterisk_Forall s :
  noAsterisk s = true -> Forall (fun c => c <> asterisk) s.
Proof.
  unfold noAsterisk. rewrite forallb_forall. intros H.
  apply Forall_forall. intros c Hc. specialize (H c Hc).
  apply negb_true_iff in H. now apply N.eqb_neq.
Qed.

Lemma replaceBold_after_plain a x :
  Forall (fun c => c <> asterisk) a ->
  replaceBold (a ++ x) = a ++ replaceBold x.
Proof.
  induction 1 as [|c a Hc _ IH]; [reflexivity|].
  cbn [app]. rewrite replaceBold_unfold.
  match goal with
  | |- context [matchBoldAt (c :: ?r)] =>
      assert (E : matchBoldAt (c :: r) = None)
  end.
  { apply N.eqb_neq in Hc.
    match goal with
    | |- matchBoldAt (c :: ?r) = None => destruct r as [|d r']
    end; [reflexivity|]. cbn [matchBoldAt]. now rewrite Hc. }
  rewrite E. f_equal. exact IH.
Qed.

(** X3. In a text made of a stretch with no asterisk, then a pair of
    double asterisks around a group with no asterisk and no line
    terminator, then any rest, the first stretch has only its line
    feeds replaced, the pair becomes the strong element around that
    group, and formatting goes on with the rest. *)
Theorem formatText_emphasizes_a_pair :
  forall a g rest,
    noAsterisk a = true ->
    plainGroup g = true ->
    formatText (a ++ [asterisk; asterisk] ++ g
                  ++ [asterisk; asterisk] ++ rest)
    = replaceNewlines a
      ++ (js "<strong class=" ++ [doubleQuote] ++ js "font-semibold"
            ++ [doubleQuote] ++ js ">" ++ g ++ js "</strong>")
      ++ formatText rest.
Proof.
  intros a g rest Ha H. apply noAsterisk_Forall in Ha.
  unfold formatText.
  rewrite (replaceBold_after_plain a _ Ha), replaceNewlines_app.
  f_equal. rewrite replaceBold_unfold.
  change (matchBoldAt ([asterisk; asterisk] ++ g ++ [asterisk; asterisk] ++ rest))
    with (lazyGroup (g ++ [asterisk; asterisk] ++ rest)).
  rewrite (lazyGroup_closes g rest H), replaceNewlines_app.
  now rewrite strong_has_no_line_feed.
Qed.

Lemma lazyGroup_never_closes g :
  Forall (fun c => c <> asterisk) g -> lazyGroup g = None.
Proof.
  induction 1 as [|c g Hc _ IH]; [reflexivity|].
  cbn [lazyGroup]. destruct g as [|d g']; [reflexivity|].
  apply N.eqb_neq in Hc. rewrite Hc. cbn [andb].
  destruct (isLineTerminator c); [reflexivity | now rewrite IH].
Qed.

(** X4. Double asterisks that no second pair closes are left as typed:
    in a text whose only asterisks are one adjacent pair, only the line
    feeds are replaced. *)
Theorem formatText_keeps_an_unclosed_pair :
  forall a g,
    noAsterisk a = true -> noAsterisk g = true ->
    formatText (a ++ [asterisk; asterisk] ++ g)
    = replaceNewlines (a ++ [asterisk; asterisk] ++ g).
Proof.
  intros a g Ha Hg. apply noAsterisk_Forall in Ha, Hg.
  unfold formatText. f_equal.
  induction Ha as [|c a Hc _ IH].
  - cbn [app]. rewrite replaceBold_unfold.
    change (matchBoldAt (asterisk :: asterisk :: g)) with (lazyGroup g).
    rewrite (lazyGroup_never_closes g Hg). f_equal.
    rewrite replaceBold_unfold.
    assert (E : matchBoldAt (asterisk :: g) = None).
    { destruct Hg as [|d g' Hd _]; [reflexivity|].
      cbn [matchBoldAt]. apply N.eqb_neq in Hd. rewrite Hd.
      now rewrite andb_false_r. }
    rewrite E. f_equal. now apply replaceBold_plain.
  - cbn [app]. rewrite replaceBold_unfold.
    match goal with
    | |- context [matchBoldAt (c :: ?r)] =>
        assert (E : matchBoldAt (c :: r) = None)
    end.
    { apply N.eqb_neq in Hc.
      match goal with
      | |- matchBoldAt (c :: ?r) = None => destruct r as [|d r']
      end; [reflexivity|]. cbn [matchBoldAt]. now rewrite Hc. }
    rewrite E. f_equal. exact IH.
Qed.

(** A bold pair in the middle of a sentence. *)
Lemma formatText_emphasizes_a_pair_witness :
  formatText (js "Try " ++ [asterisk; asterisk] ++ js "Data Scientist"
              ++ [asterisk; asterisk] ++ js " next")
  = replaceNewlines (js "Try ")
    ++ (js "<strong class=" ++ [doubleQuote] ++ js "font-semibold"
          ++ [doubleQuote] ++ js ">" ++ js "Data Scientist" ++ js "</strong>")
    ++ formatText (js " next").
Proof.
  apply (formatText_emphasizes_a_pair
           (js "Try ") (js "Data Scientist") (js " next"));
    reflexivity.
Defined.

(** An opening pair whose line ends before it is closed. *)
Lemma formatText_keeps_an_unclosed_pair_witness :
  formatText (js "costs " ++ [asterisk; asterisk] ++ js "more")
  = replaceNewlines (js "costs " ++ [asterisk; asterisk] ++ js "more").
Proof.
  apply (formatText_keeps_an_unclosed_pair (js "costs ") (js "more"));
    reflexivity.
Defined.

(* ================================================================= *)
(** ** Further properties: what a run shows while it is suspended *)

Lemma forAwait_trace_yield {A} chunk rest (acc : A) body s :
  traceOf (forAwait (Yield chunk rest) acc body s)
  = EvAwait s
    :: match body acc chunk s with
       | (Normal acc', s1, t1) => t1 ++ traceOf (forAwait rest acc' body s1)
       | (Throw _, _, t1) => t1
       end.
Proof.
  cbn [forAwait]. unfold bind at 1. unfold await at 1.
  unfold bind at 1. unfold traceOf.
  destruct (body acc chunk s) as [[[acc'|e] s1] t1]; [|reflexivity].
  now destruct (forAwait rest acc' body s1) as [[r s2] t2].
Qed.

Lemma consoleErrors_app t1 t2 :
  consoleErrors (t1 ++ t2) = consoleErrors t1 ++ consoleErrors t2.
Proof.
  induction t1 as [|e t1 IH]; [reflexivity|].
  destruct e; cbn [app consoleErrors]; now rewrite ?IH.
Qed.

Lemma streamBody_run g text chunk s :
  streamBody g text chunk s
  = (Normal (text ++ chunk_text chunk),
     withMessages s (g (text ++ chunk_text chunk) (messages s)),
     [EvSetMessages (g (text ++ chunk_text chunk) (messages s))]).
Proof. reflexivity. Qed.

(** The loop logs nothing, and is suspended only on states that still
    hold messages and have the flag as the loop found it. *)
Lemma forAwait_streamBody_suspended g stream :
  (forall t ms, ms <> [] -> g t ms <> []) ->
  forall acc s,
    messages s <> [] ->
    consoleErrors (traceOf (forAwait stream acc (streamBody g) s)) = []
    /\ Forall (fun a => messages a <> [] /\ isLoading a = isLoading s)
              (awaitStates (traceOf (forAwait stream acc (streamBody g) s))).
Proof.
  intros Hg. induction stream as [|chunk rest IH|e]; intros acc s Hs.
  - cbn. split; [reflexivity|]. now repeat constructor.
  - rewrite forAwait_trace_yield, streamBody_run.
    cbn [app consoleErrors awaitStates].
    match goal with
    | |- context [forAwait rest ?a (streamBody g) ?st] =>
        destruct (IH a st) as [Hc Ha]
    end.
    { cbn [messages]. now apply Hg. }
    split; [exact Hc|].
    constructor; [now split|]. exact Ha.
  - cbn. split; [reflexivity|]. now repeat constructor.
Qed.

Lemma mergeChunk_nonempty b t ms : ms <> [] -> mergeChunk b t ms <> [].
Proof. now destruct ms. Qed.

(** The trace of a turn whose send was initiated, around the loop. *)
Lemma handleSendMessage_streaming_trace env s c stream :
  ignoresSubmit s = false -> chat s = Some c ->
  sendMessageStream env c (userInput s) = Normal stream ->
  let withUser := messages s ++ [userMessageOf env (userInput s)] in
  let withPlaceholder := withUser ++ [botMessage env []] in
  let loop :=
    @forAwait JsString stream []
      (streamBody (mergeChunk (botMessageIdOf env)))
      {| chat := chat s; messages := withPlaceholder;
         userInput := []; isLoading := true |} in
  traceOf (handleSendMessage env s)
  = [EvSetMessages withUser;
     EvSetUserInput [];
     EvSetIsLoading true;
     EvAwait {| chat := chat s; messages := withUser;
                userInput := []; isLoading := true |};
     EvSetMessages withPlaceholder]
    ++ traceOf loop
    ++ match failureOf stream with
       | None => [EvSetIsLoading false]
       | Some e => [EvConsoleError (js "Error sending message:") e;
                    EvSetMessages
                      (messages (finalState loop) ++ [errorMessageOf env]);
                    EvSetIsLoading false]
       end.
Proof.
  intros Hg Hc Hs withUser withPlaceholder loop.
  destruct (forAwait_streamBody (mergeChunk (botMessageIdOf env))
              stream []
              {| chat := chat s; messages := withPlaceholder;
                 userInput := []; isLoading := true |})
    as (tr & Hrun & _).
  fold loop in Hrun.
  unfold handleSendMessage. rewrite Hg, Hc.
  unfold tryCatchFinally.
  unfold bind at 1. unfold setMessages at 1.
  unfold bind at 1. unfold setUserInput at 1.
  unfold bind at 1. unfold setIsLoading at 1.
  unfold bind at 1. rewrite Hs. unfold await at 1.
  unfold bind at 1. unfold setMessages at 1.
  unfold bind at 1.
  cbn [chat messages userInput isLoading].
  match goal with
  | |- context [forAwait stream [] ?b ?st] =>
      change (forAwait stream [] b st) with loop
  end.
  clearbody loop. rewrite Hrun.
  destruct (failureOf stream); cbn; rewrite ?app_nil_r, ?Hc; reflexivity.
Qed.

(** The trace of an initialization whose bootstrap turn was initiated,
    around the loop. *)
Lemma initializeChat_streaming_trace ai env s stream :
  create_failure env = None ->
  init_sendMessageStream env (sessionOf ai) (js "Hello!") = Normal stream ->
  let loop :=
    @forAwait JsString stream []
      (streamBody (fun t _ => [withText (initialBotMessage env []) t]))
      {| chat := Some (sessionOf ai);
         messages := [initialBotMessage env []];
         userInput := userInput s; isLoading := true |} in
  traceOf (initializeChat ai env s)
  = [EvSetIsLoading true;
     EvSetChat (sessionOf ai);
     EvSetMessages [initialBotMessage env []];
     EvAwait {| chat := Some (sessionOf ai);
                messages := [initialBotMessage env []];
                userInput := userInput s; isLoading := true |}]
    ++ traceOf loop
    ++ match failureOf stream with
       | None => [EvSetIsLoading false]
       | Some e => [EvConsoleError (js "Initialization failed:") e;
                    EvSetMessages [errorInitMessage];
                    EvSetIsLoading false]
       end.
Proof.
  intros Hc Hs loop.
  destruct (forAwait_streamBody
              (fun t _ => [withText (initialBotMessage env []) t])
              stream []
              {| chat := Some (sessionOf ai);
                 messages := [initialBotMessage env []];
                 userInput := userInput s; isLoading := true |})
    as (tr & Hrun & _).
  fold loop in Hrun.
  unfold initializeChat, tryCatchFinally.
  unfold bind at 1. unfold setIsLoading at 1.
  unfold bind at 1. rewrite Hc. unfold createChatSession, call.
  fold (sessionOf ai).
  unfold bind at 1. unfold setChat at 1.
  unfold bind at 1. unfold setMessagesTo at 1, setMessages at 1.
  unfold bind at 1. rewrite Hs. unfold await at 1.
  unfold bind at 1.
  cbn [chat messages userInput isLoading].
  match goal with
  | |- context [forAwait stream [] ?b ?st] =>
      change (forAwait stream [] b st) with loop
  end.
  clearbody loop. rewrite Hrun.
  destruct (failureOf stream); cbn; rewrite ?app_nil_r; reflexivity.
Qed.

Lemma typingIndicator_shown a :
  messages a <> [] -> isLoading a = true ->
  typingIndicator (App.render a) = true.
Proof.
  intros Hm Hl. cbn [App.render typingIndicator]. rewrite Hl.
  now destruct (messages a).
Qed.

(** X5. The typing indicator is shown at every suspension of
    [initializeChat] and of [handleSendMessage], that is all the while
    the provider is awaited, and it is hidden once the run of an
    operation has returned. *)
Theorem typing_indicator_while_suspended :
  (forall ai env s,
     Forall (fun a => typingIndicator (App.render a) = true)
            (awaitStates (traceOf (initializeChat ai env s)))
     /\ typingIndicator
          (App.render (finalState (initializeChat ai env s))) = false)
  /\
  (forall env s,
     Forall (fun a => typingIndicator (App.render a) = true)
            (awaitStates (traceOf (handleSendMessage env s)))
     /\ typingIndicator
          (App.render (finalState (handleSendMessage env s)))
        = if ignoresSubmit s then typingIndicator (App.render s) else false).
Proof.
  split.
  - intros ai env s. split.
    + destruct (create_failure env) as [e|] eqn:Hc.
      * rewrite (initializeChat_creation_fails ai env s e Hc). constructor.
      * destruct (init_sendMessageStream env (sessionOf ai) (js "Hello!"))
          as [stream|e] eqn:Hs.
        -- rewrite (initializeChat_streaming_trace ai env s stream Hc Hs).
           cbv zeta. rewrite !awaitStates_app. cbn [awaitStates].
           apply Forall_app. split; [now repeat constructor|].
           apply Forall_app. split.
           ++ match goal with
              | |- context [forAwait stream [] (streamBody ?g) ?st] =>
                  destruct (forAwait_streamBody_suspended g stream
                              ltac:(discriminate) [] st ltac:(discriminate))
                    as [_ Ha]
              end.
              eapply Forall_impl; [|exact Ha].
              intros a [Hm Hl]. now apply typingIndicator_shown.
           ++ destruct (failureOf stream); constructor.
        -- rewrite (initializeChat_send_rejected ai env s e Hc Hs).
           now repeat constructor.
    + destruct (initializeChat_shape ai env s) as (c' & ms & mid & Hrun & _).
      now rewrite Hrun.
  - intros env s. destruct (ignoresSubmit s) eqn:Hg.
    + rewrite (handleSendMessage_ignored env s Hg). split; [constructor|].
      reflexivity.
    + split.
      * destruct (accepted_has_session s Hg) as (c & Hc).
        destruct (sendMessageStream env c (userInput s)) as [stream|e] eqn:Hs.
        -- rewrite (handleSendMessage_streaming_trace env s c stream Hg Hc Hs).
           cbv zeta. rewrite !awaitStates_app. cbn [awaitStates].
           apply Forall_app. split.
           { constructor; [|constructor].
             apply typingIndicator_shown; [|reflexivity].
             cbn [messages]. now destruct (messages s). }
           apply Forall_app. split.
           ++ match goal with
              | |- context [forAwait stream [] (streamBody ?g) ?st] =>
                  destruct (forAwait_streamBody_suspended g stream
                              (mergeChunk_nonempty _) [] st) as [_ Ha]
              end.
              { cbn [messages].
                now destruct (messages s ++ [userMessageOf env (userInput s)]). }
              eapply Forall_impl; [|exact Ha].
              intros a [Hm Hl]. now apply typingIndicator_shown.
           ++ destruct (failureOf stream); constructor.
        -- rewrite (handleSendMessage_send_rejected env s c e Hg Hc Hs).
           unfold traceOf. cbn [snd awaitStates].
           constructor; [|constructor].
           apply typingIndicator_shown; [|reflexivity].
           cbn [messages]. now destruct (messages s).
      * destruct (handleSendMessage_shape env s Hg) as (ms & mid & Hrun & _).
        now rewrite Hrun.
Qed.

(** X6. A failure is written to the console exactly once, with the
    handler's label and the error the provider or the client library
    raised; a run that succeeds, or a submission that is ignored,
    writes nothing. *)
Theorem failures_are_logged_once :
  (forall ai env s,
     consoleErrors (traceOf (initializeChat ai env s))
     = match initError ai env with
       | Some e => [(js "Initialization failed:", e)]
       | None => []
       end)
  /\
  (forall env s,
     consoleErrors (traceOf (handleSendMessage env s))
     = match chat s with
       | None => []
       | Some c =>
           if ignoresSubmit s then []
           else match sendError env c (userInput s) with
                | Some e => [(js "Error sending message:", e)]
                | None => []
                end
       end).
Proof.
  split.
  - intros ai env s. unfold initError.
    destruct (create_failure env) as [e|] eqn:Hc.
    + now rewrite (initializeChat_creation_fails ai env s e Hc).
    + destruct (init_sendMessageStream env (sessionOf ai) (js "Hello!"))
        as [stream|e] eqn:Hs.
      * rewrite (initializeChat_streaming_trace ai env s stream Hc Hs).
        cbv zeta. rewrite !consoleErrors_app.
        match goal with
        | |- context [forAwait stream [] (streamBody ?g) ?st] =>
            destruct (forAwait_streamBody_suspended g stream
                        ltac:(discriminate) [] st ltac:(discriminate))
              as [Hl _]
        end.
        rewrite Hl. now destruct (failureOf stream).
      * now rewrite (initializeChat_send_rejected ai env s e Hc Hs).
  - intros env s. destruct (ignoresSubmit s) eqn:Hg.
    + rewrite (handleSendMessage_ignored env s Hg). now destruct (chat s).
    + destruct (accepted_has_session s Hg) as (c & Hc). rewrite Hc.
      unfold sendError.
      destruct (sendMessageStream env c (userInput s)) as [stream|e] eqn:Hs.
      * rewrite (handleSendMessage_streaming_trace env s c stream Hg Hc Hs).
        cbv zeta. rewrite !consoleErrors_app.
        match goal with
        | |- context [forAwait stream [] (streamBody ?g) ?st] =>
            destruct (forAwait_streamBody_suspended g stream
                        (mergeChunk_nonempty _) [] st) as [Hl _]
        end.
        { cbn [messages].
          now destruct (messages s ++ [userMessageOf env (userInput s)]). }
        rewrite Hl. now destruct (failureOf stream).
      * now rewrite (handleSendMessage_send_rejected env s c e Hg Hc Hs).
Qed.

(* ================================================================= *)
(** ** Further properties: the form *)

(** X7. The send button and the guard of [handleSendMessage] agree: a
    submission made while the button is disabled is ignored, and once a
    session exists the button is disabled exactly when the submission
    would be ignored. *)
Theorem send_button_matches_guard :
  forall s,
    (buttonDisabled (App.render s) = true ->
     forall env, handleSendMessage env s = (Normal tt, s, []))
    /\ (chat s <> None -> buttonDisabled (App.render s) = ignoresSubmit s).
Proof.
  intros s. cbn [App.render buttonDisabled]. unfold ignoresSubmit. split.
  - intros H env. apply handleSendMessage_ignored. unfold ignoresSubmit.
    apply orb_true_iff in H as [H|H]; rewrite H;
      now rewrite ?orb_true_r.
  - intros Hc. destruct (chat s); [|congruence].
    rewrite orb_false_r. apply orb_comm.
Qed.

(** What the send button does for a blank text and for a session that
    exists. *)
Lemma send_button_matches_guard_witness :
  handleSendMessage Scenario.drawingEnv (Scenario.welcomed (js "  "))
  = (Normal tt, Scenario.welcomed (js "  "), [])
  /\ buttonDisabled (App.render (Scenario.welcomed (js "I love drawing")))
     = ignoresSubmit (Scenario.welcomed (js "I love drawing")).
Proof.
  split.
  - apply (proj1 (send_button_matches_guard (Scenario.welcomed (js "  ")))).
    reflexivity.
  - apply (proj2 (send_button_matches_guard
                    (Scenario.welcomed (js "I love drawing")))).
    discriminate.
Defined.

(** X8. The input is cleared exactly when the submission is accepted:
    an ignored submission leaves the typed text in the input, an
    accepted one leaves the input empty whatever the provider does;
    [initializeChat] never touches the input. *)
Theorem input_cleared_when_accepted :
  (forall env s,
     userInput (finalState (handleSendMessage env s))
     = if ignoresSubmit s then userInput s else [])
  /\ (forall ai env s,
        userInput (finalState (initializeChat ai env s)) = userInput s).
Proof.
  split.
  - intros env s. destruct (ignoresSubmit s) eqn:Hg.
    + now rewrite (handleSendMessage_ignored env s Hg).
    + destruct (handleSendMessage_shape env s Hg) as (ms & mid & Hrun & _).
      now rewrite Hrun.
  - intros ai env s.
    destruct (initializeChat_shape ai env s) as (c' & ms & mid & Hrun & _).
    now rewrite Hrun.
Qed.

(* ================================================================= *)
(** ** Further properties: one turn *)

(** X9. A turn whose reply streams to its end adds exactly two messages
    to a list in which no message carries the placeholder's identifier:
    the user's message and the BOT message holding the whole reply (an
    empty one when the stream yields nothing); everything before them
    is as it was. *)
Theorem successful_turn_adds_two_messages :
  forall env s c stream,
    ignoresSubmit s = false -> chat s = Some c ->
    sendMessageStream env c (userInput s) = Normal stream ->
    failureOf stream = None ->
    Forall (fun m => id m <> botMessageIdOf env) (messages s) ->
    messages (finalState (handleSendMessage env s))
    = messages s ++ [userMessageOf env (userInput s);
                     botMessage env (concat (fragmentsOf stream))].
Proof.
  intros env s c stream Hg Hc Hs Hok Hfresh.
  destruct (handleSendMessage_streaming env s c stream Hg Hc Hs)
    as (tr & Hrun & _).
  rewrite Hrun, Hok. unfold finalState. cbn [fst snd messages].
  destruct (fragmentsOf stream) as [|f fs].
  - now rewrite <- app_assoc.
  - rewrite mergeChunk_placeholder, mergeChunk_app.
    rewrite (mergeChunk_unrelated _ _ _ Hfresh).
    change (mergeChunk (botMessageIdOf env) (concat (f :: fs))
              [userMessageOf env (userInput s)])
      with [userMessageOf env (userInput s)].
    now rewrite <- !app_assoc.
Qed.

(** The drawing turn of the end-to-end scenario. *)
Lemma successful_turn_adds_two_messages_witness :
  messages
    (finalState
       (handleSendMessage Scenario.drawingEnv
          (Scenario.welcomed (js "I love drawing"))))
  = [initialBotMessage Scenario.welcomeInit (js "Welcome!");
     {| id := js "user-2000"; sender := USER; text := js "I love drawing" |};
     {| id := js "bot-2750"; sender := BOT;
        text := js "You could be a **Graphic Designer**." |}].
Proof.
  apply (successful_turn_adds_two_messages
           Scenario.drawingEnv (Scenario.welcomed (js "I love drawing"))
           (sessionOf Scenario.ai)
           (streamOf [js "You could be a "; js "**Graphic Designer**";
                      js "."] None)
           eq_refl eq_refl eq_refl eq_refl).
  repeat constructor. discriminate.
Defined.

(** X10. The merge step selects by identifier alone: when an earlier
    message carries the identifier the turn gives its placeholder, the
    first fragment onwards overwrites that message's text with the
    reply, and it ends holding everything the stream yielded, whether
    the stream then ends or breaks off. *)
Theorem earlier_message_with_the_placeholder_id_is_overwritten :
  forall env s c stream i m,
    ignoresSubmit s = false -> chat s = Some c ->
    sendMessageStream env c (userInput s) = Normal stream ->
    fragmentsOf stream <> [] ->
    nth_error (messages s) i = Some m ->
    id m = botMessageIdOf env ->
    nth_error (messages (finalState (handleSendMessage env s))) i
    = Some (withText m (concat (fragmentsOf stream))).
Proof.
  intros env s c stream i m Hg Hc Hs Hfs Hi Hid.
  destruct (handleSendMessage_streaming env s c stream Hg Hc Hs)
    as (tr & Hrun & _).
  rewrite Hrun. unfold finalState. cbn [fst snd messages].
  destruct (fragmentsOf stream) as [|f fs]; [congruence|].
  assert (Hlt : i < length (messages s))
    by (apply nth_error_Some; congruence).
  assert (Hmerged :
            nth_error
              (mergeChunk (botMessageIdOf env) (concat (f :: fs))
                 ((messages s ++ [userMessageOf env (userInput s)])
                  ++ [botMessage env []])) i
            = Some (withText m (concat (f :: fs)))).
  { rewrite <- app_assoc, mergeChunk_app.
    rewrite nth_error_app1 by (now rewrite mergeChunk_length).
    destruct (mergeChunk_mergedInto (botMessageIdOf env)
                (concat (f :: fs)) (messages s)) as [_ Hpos].
    destruct (Hpos i m Hi) as (m' & Hm' & _ & Hset).
    rewrite Hm'. f_equal. now apply Hset. }
  destruct (failureOf stream); [|exact Hmerged].
  rewrite nth_error_app1; [exact Hmerged|].
  rewrite mergeChunk_length, !length_app. lia.
Qed.

(** The reply of the first of two turns made in the same millisecond. *)
Lemma earlier_message_with_the_placeholder_id_is_overwritten_witness :
  nth_error
    (messages
       (finalState
          (handleSendMessage (Scenario.sameInstant (js "Data."))
             {| chat := Some (sessionOf Scenario.ai);
                messages :=
                  [{| id := js "bot-2000"; sender := BOT;
                      text := js "Design." |}];
                userInput := js "And maths";
                isLoading := false |})))
    0
  = Some {| id := js "bot-2000"; sender := BOT; text := js "Data." |}.
Proof.
  apply (earlier_message_with_the_placeholder_id_is_overwritten
           (Scenario.sameInstant (js "Data."))
           {| chat := Some (sessionOf Scenario.ai);
              messages :=
                [{| id := js "bot-2000"; sender := BOT;
                    text := js "Design." |}];
              userInput := js "And maths";
              isLoading := false |}
           (sessionOf Scenario.ai) (streamOf [js "Data."] None) 0
           {| id := js "bot-2000"; sender := BOT; text := js "Design." |});
    try reflexivity.
  discriminate.
Defined.

(** X11. A turn consults the provider with the stored session and the
    literal text of the input, untrimmed and as it was before the input
    was cleared, and reads the clock: two worlds that agree on that one
    answer and on the clock give the same run. *)
Theorem turn_depends_on_the_answer_to_the_literal_input :
  forall env env' s c,
    chat s = Some c ->
    sendMessageStream env c (userInput s)
    = sendMessageStream env' c (userInput s) ->
    now_user env = now_user env' ->
    now_bot env = now_bot env' ->
    now_error env = now_error env' ->
    handleSendMessage env s = handleSendMessage env' s.
Proof.
  intros env env' s c Hc Hsend Hu Hb He.
  unfold handleSendMessage. rewrite Hc.
  destruct (ignoresSubmit s); [reflexivity|].
  unfold userMessageOf, botMessageIdOf, errorMessageOf.
  now rewrite Hsend, Hu, Hb, He.
Qed.

(** Two providers that differ only on the trimmed text. *)
Lemma turn_depends_on_the_answer_to_the_literal_input_witness :
  handleSendMessage
    {| now_user := 2000;
       sendMessageStream := fun _ text =>
         if Js.eqb text (js " hi ") then Normal (streamOf [js "Hello"] None)
         else Throw Scenario.offline;
       now_bot := 2750; now_error := 2900 |}
    (Scenario.welcomed (js " hi "))
  = handleSendMessage
      {| now_user := 2000;
         sendMessageStream := Scenario.replies [js "Hello"] None;
         now_bot := 2750; now_error := 2900 |}
      (Scenario.welcomed (js " hi ")).
Proof.
  apply (turn_depends_on_the_answer_to_the_literal_input
           _ _ (Scenario.welcomed (js " hi ")) (sessionOf Scenario.ai));
    reflexivity.
Defined.

(* ================================================================= *)
(** ** Further properties: the conversation *)

Lemma mergeChunk_identities b p ms :
  map identity (mergeChunk b p ms) = map identity ms.
Proof.
  unfold mergeChunk. rewrite map_map. apply map_ext.
  intros m. now destruct (Js.eqb (id m) b).
Qed.

(** What an accepted turn adds, by identifier and sender: the user's
    message, a BOT message, and at most one more BOT message. *)
Lemma handleSendMessage_identities env s :
  ignoresSubmit s = false ->
  exists second tail,
    map identity (messages (finalState (handleSendMessage env s)))
    = map identity (messages s)
      ++ identity (userMessageOf env (userInput s)) :: (second, BOT) :: tail
    /\ Forall (fun p => snd p = BOT) tail /\ length tail <= 1.
Proof.
  intros Hg. destruct (accepted_has_session s Hg) as (c & Hc).
  destruct (sendMessageStream env c (userInput s)) as [stream|e] eqn:Hs.
  - destruct (handleSendMessage_streaming env s c stream Hg Hc Hs)
      as (tr & Hrun & _).
    rewrite Hrun. unfold finalState. cbn [fst snd messages].
    assert (Hstreamed :
              map identity
                (match fragmentsOf stream with
                 | [] => (messages s ++ [userMessageOf env (userInput s)])
                         ++ [botMessage env []]
                 | _ :: _ =>
                     mergeChunk (botMessageIdOf env)
                       (concat (fragmentsOf stream))
                       ((messages s ++ [userMessageOf env (userInput s)])
                        ++ [botMessage env []])
                 end)
              = map identity (messages s)
                ++ [identity (userMessageOf env (userInput s));
                    (botMessageIdOf env, BOT)]).
    { destruct (fragmentsOf stream); rewrite ?mergeChunk_identities;
        rewrite <- app_assoc, map_app; reflexivity. }
    destruct (failureOf stream).
    + rewrite map_app, Hstreamed, <- app_assoc.
      exists (botMessageIdOf env), [identity (errorMessageOf env)].
      split; [reflexivity|]. split; [now repeat constructor | cbn; lia].
    + rewrite Hstreamed. exists (botMessageIdOf env), [].
      split; [reflexivity|]. split; [constructor | cbn; lia].
  - rewrite (handleSendMessage_send_rejected env s c e Hg Hc Hs).
    unfold finalState. cbn [fst snd messages].
    rewrite <- app_assoc, map_app.
    exists (id (errorMessageOf env)), [].
    split; [reflexivity|]. split; [constructor | cbn; lia].
Qed.

Lemma playTurn_messages t s :
  messages (finalState (playTurn t s))
  = messages
      (finalState
         (handleSendMessage (turn_env t)
            {| chat := chat s; messages := messages s;
               userInput := typed t; isLoading := isLoading s |})).
Proof. now rewrite playTurn_run. Qed.

Lemma playTurn_returns t s : fst (fst (playTurn t s)) = Normal tt.
Proof.
  rewrite playTurn_run. cbv zeta. cbn [fst].
  match goal with
  | |- fst (fst (handleSendMessage ?e ?st)) = _ =>
      destruct (ignoresSubmit st) eqn:Hg;
      [now rewrite (handleSendMessage_ignored e st Hg)
      |destruct (handleSendMessage_shape e st Hg)
         as (ms & mid & Hrun & _); now rewrite Hrun]
  end.
Qed.

(** The state after a list of turns is the state after the rest of the
    list, started where the first turn ended. *)
Lemma playTurns_cons t ts s :
  finalState (playTurns (t :: ts) s)
  = finalState (playTurns ts (finalState (playTurn t s))).
Proof.
  cbn [playTurns]. pose proof (playTurn_returns t s) as Hr.
  destruct (playTurn t s) as [[r s1] t1] eqn:Hp. cbn [fst] in Hr. subst r.
  rewrite (bind_normal _ _ _ _ _ _ Hp). reflexivity.
Qed.

Lemma handleSendMessage_growth env s :
  length (messages (finalState (handleSendMessage env s)))
  = length (messages s) + turnGrowth env s.
Proof.
  unfold turnGrowth. destruct (ignoresSubmit s) eqn:Hg.
  - rewrite (handleSendMessage_ignored env s Hg). apply plus_n_O.
  - destruct (accepted_has_session s Hg) as (c & Hc). rewrite Hc.
    destruct (sendMessageStream env c (userInput s)) as [stream|e] eqn:Hs.
    + destruct (handleSendMessage_streaming env s c stream Hg Hc Hs)
        as (tr & Hrun & _).
      rewrite Hrun. unfold finalState. cbn [fst snd messages].
      destruct (failureOf stream), (fragmentsOf stream);
        rewrite ?length_app, ?mergeChunk_length, ?length_app;
        cbn [length]; lia.
    + rewrite (handleSendMessage_send_rejected env s c e Hg Hc Hs).
      unfold finalState. cbn [fst snd messages].
      rewrite !length_app. cbn [length]. lia.
Qed.

(** X12. The list only grows, and a message keeps its identifier and
    its sender for life: a submission adds nothing when ignored, two
    messages when the send is rejected or the reply streams to its end,
    three when the stream breaks off; and after any turns the
    identifiers and senders from before are still there, in order, at
    the head of the list. *)
Theorem history_is_append_only :
  (forall env s,
     exists added,
       map identity (messages (finalState (handleSendMessage env s)))
       = map identity (messages s) ++ added
       /\ length added = turnGrowth env s)
  /\
  (forall ts s,
     exists added,
       map identity (messages (finalState (playTurns ts s)))
       = map identity (messages s) ++ added).
Proof.
  assert (Hturn : forall env s,
            exists added,
              map identity (messages (finalState (handleSendMessage env s)))
              = map identity (messages s) ++ added
              /\ length added = turnGrowth env s).
  { intros env s.
    assert (Hex : exists added,
              map identity (messages (finalState (handleSendMessage env s)))
              = map identity (messages s) ++ added).
    { destruct (ignoresSubmit s) eqn:Hg.
      - rewrite (handleSendMessage_ignored env s Hg). exists [].
        now rewrite app_nil_r.
      - destruct (handleSendMessage_identities env s Hg)
          as (second & tail & Hids & _).
        eexists. exact Hids. }
    destruct Hex as (added & Hids). exists added. split; [exact Hids|].
    apply (f_equal (@length _)) in Hids.
    rewrite length_app, !length_map, handleSendMessage_growth in Hids.
    lia. }
  split; [exact Hturn|].
  induction ts as [|t ts IH]; intros s.
  - exists []. now rewrite app_nil_r.
  - rewrite playTurns_cons.
    destruct (IH (finalState (playTurn t s))) as (added' & H').
    rewrite H', playTurn_messages.
    destruct (Hturn (turn_env t)
                {| chat := chat s; messages := messages s;
                   userInput := typed t; isLoading := isLoading s |})
      as (added & H & _).
    rewrite H. cbn [messages]. exists (added ++ added').
    now rewrite app_assoc.
Qed.

Lemma answered_bots tail :
  Forall (fun x => x = BOT) tail -> answered tail = true.
Proof. induction 1 as [|x tail -> _ IH]; [reflexivity | exact IH]. Qed.

Lemma answered_extend tail : forall l,
  answered l = true ->
  Forall (fun x => x = BOT) tail ->
  answered (l ++ USER :: BOT :: tail) = true.
Proof.
  intros l Hl Htail.
  assert (Hbase : answered (USER :: BOT :: tail) = true)
    by (cbn [answered]; now apply answered_bots).
  induction l as [|x l IH]; [exact Hbase|].
  destruct x.
  - destruct l as [|[|] l']; try discriminate Hl.
    change (answered (BOT :: l') = true) in Hl.
    change (answered (BOT :: (l' ++ USER :: BOT :: tail)) = true).
    exact (IH Hl).
  - exact (IH Hl).
Qed.

Lemma playTurns_answered ts : forall s,
  answered (map sender (messages s)) = true ->
  answered (map sender (messages (finalState (playTurns ts s)))) = true.
Proof.
  induction ts as [|t ts IH]; intros s Hs; [exact Hs|].
  rewrite playTurns_cons. apply IH. rewrite playTurn_messages.
  match goal with
  | |- context [handleSendMessage ?e ?st] =>
      destruct (ignoresSubmit st) eqn:Hg;
      [now rewrite (handleSendMessage_ignored e st Hg)
      |destruct (handleSendMessage_identities e st Hg)
         as (second & tail & Hids & Htail & _)]
  end.
  apply (f_equal (map snd)) in Hids.
  rewrite map_app, !map_map in Hids. cbn [map snd identity] in Hids.
  rewrite (map_ext (fun m => snd (identity m)) sender) in Hids
    by reflexivity.
  rewrite Hids. cbn [messages]. apply answered_extend; [exact Hs|].
  apply Forall_map. exact Htail.
Qed.

(** X13. Every user message gets a bubble in reply: once
    initialization and any number of turns have returned, each USER
    message in the list is directly followed by a BOT message, the
    reply or the error message. *)
Theorem every_user_message_is_answered :
  forall ai env ts,
    answered
      (map sender
         (messages (finalState (conversation ai env ts initialState))))
    = true.
Proof.
  intros ai env ts. unfold conversation.
  pose proof (initializeChat_final_bots ai env initialState) as Hbots.
  destruct (initializeChat_shape ai env initialState)
    as (c' & ms & mid & Hrun & _).
  rewrite Hrun in Hbots. unfold finalState in Hbots.
  cbn [fst snd messages] in Hbots.
  rewrite (bind_normal _ _ _ _ _ _ Hrun).
  unfold finalState at 1. cbn [fst snd].
  apply playTurns_answered. cbn [messages].
  apply answered_bots, Forall_map. exact Hbots.
Qed.

Lemma playTurns_without_session ts : forall s,
  chat s = None ->
  messages (finalState (playTurns ts s)) = messages s
  /\ chat (finalState (playTurns ts s)) = None.
Proof.
  induction ts as [|t ts IH]; intros s Hc; [now split|].
  rewrite playTurns_cons, playTurn_run. cbv zeta.
  unfold finalState at 2 4. cbn [fst snd].
  set (s1 := {| chat := chat s; messages := messages s;
                userInput := typed t; isLoading := isLoading s |}).
  assert (Hg : ignoresSubmit s1 = true)
    by (apply ignoresSubmit_true_iff; right; right; exact Hc).
  rewrite (handleSendMessage_ignored _ _ Hg).
  unfold finalState at 2 4. cbn [fst snd].
  destruct (IH s1 Hc) as [Hm Hc']. now split.
Qed.

(** X14. The session is fixed by [initializeChat]: after any turns the
    stored session is the one created at the start, or none when its
    creation failed; and when its creation failed every later
    submission is ignored, so the list stays the single error
    message. *)
Theorem session_is_fixed_at_initialization :
  (forall ai env ts,
     chat (finalState (conversation ai env ts initialState))
     = match create_failure env with
       | None => Some (sessionOf ai)
       | Some _ => None
       end)
  /\
  (forall ai env ts e,
     create_failure env = Some e ->
     messages (finalState (conversation ai env ts initialState))
     = [errorInitMessage]).
Proof.
  split.
  - intros ai env ts. unfold conversation.
    destruct (create_failure env) as [e|] eqn:Hc.
    + rewrite (bind_normal _ _ _ _ _ _
                 (initializeChat_creation_fails ai env initialState e Hc)).
      unfold finalState at 1. cbn [fst snd].
      now apply playTurns_without_session.
    + destruct (initializeChat_shape ai env initialState)
        as (c' & ms & mid & Hrun & _ & _ & Hsession).
      rewrite (bind_normal _ _ _ _ _ _ Hrun).
      unfold finalState at 1. cbn [fst snd].
      match goal with
      | |- chat (finalState (playTurns ts ?st)) = _ =>
          destruct (playTurns_idle ts st eq_refl) as (_ & _ & Hchat)
      end.
      rewrite Hchat. cbn [chat]. now apply Hsession.
  - intros ai env ts e Hc. unfold conversation.
    rewrite (bind_normal _ _ _ _ _ _
               (initializeChat_creation_fails ai env initialState e Hc)).
    unfold finalState at 1. cbn [fst snd].
    match goal with
    | |- messages (finalState (playTurns ts ?st)) = _ =>
        destruct (playTurns_without_session ts st eq_refl) as [Hm _]
    end.
    now rewrite Hm.
Qed.

(** Two submissions after a session creation that failed. *)
Lemma session_is_fixed_at_initialization_witness :
  messages
    (finalState
       (conversation Scenario.ai Scenario.brokenInit
          [Scenario.firstTurn; Scenario.secondTurn] initialState))
  = [errorInitMessage].
Proof.
  exact (proj2 session_is_fixed_at_initialization
           Scenario.ai Scenario.brokenInit
           [Scenario.firstTurn; Scenario.secondTurn]
           Scenario.offline eq_refl).
Defined.

Lemma initializeChat_final_single ai env s :
  exists m,
    messages (finalState (initializeChat ai env s)) = [m] /\ sender m = BOT.
Proof.
  destruct (create_failure env) as [e|] eqn:Hc.
  - rewrite (initializeChat_creation_fails ai env s e Hc).
    now exists errorInitMessage.
  - destruct (init_sendMessageStream env (sessionOf ai) (js "Hello!"))
      as [stream|e] eqn:Hs.
    + destruct (initializeChat_streaming ai env s stream Hc Hs)
        as (tr & Hrun & _).
      rewrite Hrun. unfold finalState. cbn [fst snd messages].
      destruct (failureOf stream); eexists; split; reflexivity.
    + rewrite (initializeChat_send_rejected ai env s e Hc Hs).
      now exists errorInitMessage.
Qed.

(** X15. When the program starts at all, the page it leaves shows
    exactly one BOT message (the greeting or the error message), has the
    pending flag down, the input enabled and empty, the send button
    disabled, and a stored session, if any, that was created for the
    supplied credential with the fixed model. *)
Theorem start_leaves_one_bot_message :
  forall API_KEY rootElement env s tr,
    Index.main API_KEY rootElement env = Normal (s, tr) ->
    (exists m, messages s = [m] /\ sender m = BOT)
    /\ isLoading s = false
    /\ userInput s = []
    /\ inputDisabled (App.render s) = false
    /\ buttonDisabled (App.render s) = true
    /\ (forall c, chat s = Some c ->
          API_KEY = Some (apiKey (client c))
          /\ model c = js "gemini-2.5-flash").
Proof.
  intros API_KEY rootElement env s tr. unfold Index.main.
  destruct (GeminiService.load API_KEY) as [ai|e] eqn:Hload; [|discriminate].
  destruct rootElement; [|discriminate]. intros [= <- _].
  assert (Hkey : API_KEY = Some (apiKey ai)).
  { destruct API_KEY as [key|]; [|discriminate]. cbn in Hload.
    destruct (truthy key); [|discriminate]. now injection Hload as <-. }
  split; [apply initializeChat_final_single|].
  destruct (initializeChat_shape ai env initialState)
    as (c' & ms & mid & Hrun & _ & _ & Hsession).
  rewrite Hrun. unfold finalState. cbn [fst snd].
  repeat (split; [reflexivity|]).
  cbn [chat]. intros c ->.
  destruct (create_failure env) as [e|] eqn:Hc.
  - rewrite (initializeChat_creation_fails ai env initialState e Hc) in Hrun.
    discriminate Hrun.
  - specialize (Hsession eq_refl). injection Hsession as ->.
    now split.
Qed.

(** A start with a credential and a provider that greets. *)
Lemma start_leaves_one_bot_message_witness :
  isLoading
    (finalState
       (initializeChat Scenario.ai Scenario.welcomeInit initialState))
  = false.
Proof.
  apply (start_leaves_one_bot_message
           (Some (js "secret")) true Scenario.welcomeInit
           (finalState
              (initializeChat Scenario.ai Scenario.welcomeInit initialState))
           (traceOf
              (initializeChat Scenario.ai Scenario.welcomeInit initialState))).
  reflexivity.
Defined.

(* ================================================================= *)
(** ** Further properties at scenarios *)

(** Two turns a second apart. *)
Lemma identifiers_distinct_while_clock_readings_differ_witness :
  NoDup
    (idsOf
       (messages
          (finalState
             (conversation Scenario.ai Scenario.welcomeInit
                [{| typed := js "I love drawing";
                    turn_env := Scenario.drawingEnv |};
                 {| typed := js "And maths";
                    turn_env :=
                      {| now_user := 3000;
                         sendMessageStream :=
                           Scenario.replies [js "Data."] None;
                         now_bot := 3750;
                         now_error := 3900 |} |}]
                initialState)))).
Proof.
  apply identifiers_distinct_while_clock_readings_differ;
    cbn [map typed turn_env now_user now_bot now_error Scenario.drawingEnv];
    repeat constructor; cbn [In]; intros H;
    repeat (destruct H as [H|H]; [discriminate H|]); exact H.
Defined.

(** A provider that rejects the greeting and a text typed afterwards. *)
Lemma session_exists_after_failed_bootstrap_witness :
  ignoresSubmit
    (finalState
       (handleChange (js "I love drawing")
          (finalState
             (initializeChat Scenario.ai
                {| create_failure := None;
                   init_now := 1000;
                   init_sendMessageStream := fun _ _ => Throw Scenario.offline |}
                initialState))))
  = false.
Proof.
  apply (session_exists_after_failed_bootstrap
           Scenario.ai
           {| create_failure := None;
              init_now := 1000;
              init_sendMessageStream := fun _ _ => Throw Scenario.offline |}
           Scenario.offline (js "I love drawing"));
    reflexivity.
Defined.
